(** * The HD-key extension of the keystore

    A shallow embedding of the Go code that
    [_assets/patches/geth/0000-accounts-hd-keys.patch] adds to the
    [accounts/keystore] package: [newKeyFromExtendedKey] (key.go),
    [ImportExtendedKey], [IncSubAccountIndex], [zeroKey] (keystore.go),
    [EncryptExtendedKey], [DecryptKey], [decryptExtendedKey], [getKDFKey]
    (keystore_passphrase.go).

    Conventions of the embedding.
    - A Go [string] and a [[]byte] are both sequences of bytes; [[]byte(s)] is
      [list_byte_of_string s] and [string(b)] is [string_of_list_byte b].
    - A Go function returning [(T, error)] returns a [result T]; where the
      value returned next to a non-nil error is observable ([&Key{}],
      [accounts.Account{}]) the pair is kept as [T * option error].
    - A run-time panic (failed type assertion, slice bound) is the error
      [ErrPanic]: nothing in this code recovers, so it unwinds like an
      error no caller handles.
    - Calls that draw randomness or read the clock take what they drew as
      an argument.
    - Functions of other packages (scrypt, AES, Keccak, encoding/json,
      extkeys, the account cache, the key storage) are fields of the
      interface classes below; what is assumed of them is stated at each
      theorem that needs it. *)

From Stdlib Require Import ZArith List Bool Lia QArith.
From Stdlib.Strings Require Import String Ascii Byte.
From stdpp Require Import base option list gmap strings.

Local Open Scope Z_scope.
Local Open Scope string_scope.
Local Open Scope list_scope.

(** ** Errors and results *)

Inductive error : Type :=
| ErrDecrypt                          (* keystore.ErrDecrypt *)
| ErrVersionNotSupported (v : Z)      (* fmt.Errorf("Version not supported: %v", v) *)
| ErrCipherNotSupported (c : string)  (* fmt.Errorf("Cipher not supported: %v", c) *)
| ErrUnsupportedKDF (k : string)      (* fmt.Errorf("Unsupported KDF: %s", k) *)
| ErrInvalidByte (c : ascii)          (* hex.InvalidByteError *)
| ErrLength                           (* hex.ErrLength *)
| ErrPanic (msg : string)             (* run-time panic *)
| ErrExternal (msg : string).         (* an error value of another package *)

Inductive result (A : Type) : Type :=
| Ok (a : A)
| Err (e : error).
Arguments Ok {A} a.
Arguments Err {A} e.

#[global] Instance result_ret : MRet result := @Ok.

#[global] Instance result_bind : MBind result := fun A B f r =>
  match r with
  | Ok a => f a
  | Err e => Err e
  end.

(** Exposes the [match] behind every [x ← r; k]. *)
Ltac unfold_bind := unfold mbind, result_bind in *.

(** The spec's error classes: AuthenticationError is [ErrDecrypt];
    UnsupportedFormatError is one of the three errors naming an identifier. *)
Definition UnsupportedFormatError (e : error) : Prop :=
  match e with
  | ErrVersionNotSupported _ | ErrCipherNotSupported _ | ErrUnsupportedKDF _ => True
  | _ => False
  end.

#[global] Instance byte_eq_dec : EqDecision byte := Byte.byte_eq_dec.

(** [b[lo:hi]] on a slice whose capacity is its length: a panic when [hi]
    is past the end. *)
Definition slice (b : list byte) (lo hi : nat) : result (list byte) :=
  if (hi <=? length b)%nat then Ok (take (hi - lo) (drop lo b))
  else Err (ErrPanic "slice bounds out of range").

(** ** encoding/hex *)

Module hex.

Definition hextable : string := "0123456789abcdef".

Definition digit (n : N) : ascii :=
  match String.get (N.to_nat n) hextable with
  | Some c => c
  | None => "0"%char
  end.

Definition fromHexChar (c : ascii) : option N :=
  let n := N_of_ascii c in
  if ((48 <=? n) && (n <=? 57))%N then Some (n - 48)%N
  else if ((97 <=? n) && (n <=? 102))%N then Some (n - 97 + 10)%N
  else if ((65 <=? n) && (n <=? 70))%N then Some (n - 65 + 10)%N
  else None.

Definition byte_of_nibbles (a b : N) : byte :=
  match Byte.of_N (a * 16 + b) with
  | Some x => x
  | None => x00
  end.

Fixpoint EncodeToString (src : list byte) : string :=
  match src with
  | [] => EmptyString
  | b :: rest =>
      let v := Byte.to_N b in
      String (digit (v / 16)) (String (digit (v mod 16)) (EncodeToString rest))
  end.

Fixpoint DecodeString (s : string) : result (list byte) :=
  match s with
  | EmptyString => Ok []
  | String p EmptyString =>
      match fromHexChar p with
      | None => Err (ErrInvalidByte p)
      | Some _ => Err ErrLength
      end
  | String p (String q rest) =>
      match fromHexChar p with
      | None => Err (ErrInvalidByte p)
      | Some a =>
          match fromHexChar q with
          | None => Err (ErrInvalidByte q)
          | Some b =>
              match DecodeString rest with
              | Ok bs => Ok (byte_of_nibbles a b :: bs)
              | Err e => Err e
              end
          end
      end
  end.

End hex.

(** ** Data of the packages the patch uses *)

(** A value of type [interface{}]: what a [map[string]interface{}] holds,
    built by the code ([int], [string]) or decoded from JSON ([float64],
    [string]). *)
Inductive any : Type :=
| AInt (n : Z)
| AFloat64 (f : Q)
| AString (s : string)
| AOther.

Module ecdsa.
(** [PublicKey] is the point (X, Y); [D] is the secret scalar as the words
    [D.Bits()] exposes. *)
Record PrivateKey : Type := { PublicKey : Z * Z; D : list Z }.
End ecdsa.

(** Memory: the [ecdsa.PrivateKey] objects that pointers of type
    [*ecdsa.PrivateKey] refer to. *)
Abbreviation heap := (gmap nat ecdsa.PrivateKey).

Definition alloc (h : heap) (k : ecdsa.PrivateKey) : nat * heap :=
  let l := fresh (dom h) in (l, <[l := k]> h).

Module accounts.
Module URL.
Record t : Type := { Scheme : string; Path : string }.
End URL.
Record Account : Type := { Address : list byte; URL : URL.t }.
End accounts.

(** [common.Address{}] and [accounts.Account{}]. *)
Definition Address_zero : list byte := repeat x00 20.

Definition Account_zero : accounts.Account :=
  {| accounts.Address := Address_zero;
     accounts.URL := {| accounts.URL.Scheme := ""; accounts.URL.Path := "" |} |}.

Module extkeys.
(** Modelled from the spec: the struct [ExtendedKey] is declared in package
    extkeys, which the patch imports and does not contain. The fields are
    those of the spec's data model (key bytes, chain code, depth, parent
    fingerprint, child index); the patch reads [Depth] only. *)
Record ExtendedKey : Type := {
  KeyData : list byte;
  ChainCode : list byte;
  Depth : Z;
  FingerPrint : list byte;
  ChildNumber : Z;
  IsPrivate : bool;
}.

(** The functions of package extkeys the patch calls. A pointer result
    that the caller stores ([NewKeyFromString]) is an [option]; one that
    the caller dereferences at once ([BIP44Child]) is the key itself. *)
Class API : Type := {
  BIP44Child : ExtendedKey -> Z -> Z -> result ExtendedKey;
  ToECDSA : ExtendedKey -> ecdsa.PrivateKey;
  String : ExtendedKey -> string;
  NewKeyFromString : string -> result (option ExtendedKey);
  EmptyExtendedKeyString : string;
  CoinTypeETH : Z;
}.
End extkeys.

(** [&extkeys.ExtendedKey{}], the value the spec calls the empty sentinel. *)
Definition emptyExtendedKey : extkeys.ExtendedKey :=
  {| extkeys.KeyData := []; extkeys.ChainCode := []; extkeys.Depth := 0;
     extkeys.FingerPrint := []; extkeys.ChildNumber := 0;
     extkeys.IsPrivate := false |}.

Module scrypt.
(** [scrypt.Key(password, salt, N, r, p, keyLen)]. *)
Class API : Type := {
  Key : list byte -> list byte -> Z -> Z -> Z -> Z -> result (list byte);
}.
End scrypt.

Module crypto.
(** [Keccak256(data...)] hashes the concatenation of its arguments. *)
Class API : Type := {
  Keccak256 : list byte -> list byte;
  ToECDSAUnsafe : list byte -> ecdsa.PrivateKey;
  PubkeyToAddress : Z * Z -> list byte;
}.
End crypto.

(** ** Data of package keystore *)

Module cipherparamsJSON.
Record t : Type := { IV : string }.
End cipherparamsJSON.

Module cryptoJSON.
Record t : Type := {
  Cipher : string;
  CipherText : string;
  CipherParams : cipherparamsJSON.t;
  KDF : string;
  KDFParams : gmap string any;
  MAC : string;
}.
End cryptoJSON.

(** [cryptoJSON{}]. *)
Definition cryptoJSON_zero : cryptoJSON.t :=
  {| cryptoJSON.Cipher := ""; cryptoJSON.CipherText := "";
     cryptoJSON.CipherParams := {| cipherparamsJSON.IV := "" |};
     cryptoJSON.KDF := ""; cryptoJSON.KDFParams := ∅; cryptoJSON.MAC := "" |}.

Module encryptedKeyJSONV3.
Record t : Type := {
  Address : string;
  Crypto : cryptoJSON.t;
  Id : string;
  Version : Z;
  ExtendedKey : cryptoJSON.t;
  SubAccountIndex : Z;
}.
End encryptedKeyJSONV3.

Module encryptedKeyJSONV1.
Record t : Type := {
  Address : string;
  Crypto : cryptoJSON.t;
  Id : string;
  Version : string;
}.
End encryptedKeyJSONV1.

Module Key.
Record t : Type := {
  Id : list byte;
  Address : list byte;
  PrivateKey : option nat;
  ExtendedKey : option extkeys.ExtendedKey;
  SubAccountIndex : Z;
}.
End Key.

(** [&Key{}]. *)
Definition Key_zero : Key.t :=
  {| Key.Id := []; Key.Address := Address_zero; Key.PrivateKey := None;
     Key.ExtendedKey := None; Key.SubAccountIndex := 0 |}.

(** What the patched functions use of the unpatched part of package
    keystore: constants ([version], [scryptR], [KeyStoreScheme]) and
    helpers ([aesCTRXOR key inText iv], [decryptKeyV1], [decryptKeyV3],
    which return [(keyBytes, keyId)], and [keyFileName], which reads the
    clock). *)
Class Upstream : Type := {
  version : Z;
  scryptR : Z;
  KeyStoreScheme : string;
  aesCTRXOR : list byte -> list byte -> list byte -> result (list byte);
  decryptKeyV1 : encryptedKeyJSONV1.t -> string -> result (list byte * list byte);
  decryptKeyV3 : encryptedKeyJSONV3.t -> string -> result (list byte * list byte);
  keyFileName : Z -> list byte -> string;
}.

Module json.
(** [json.Unmarshal(data, v)] at the three types [DecryptKey] decodes to. *)
Class API : Type := {
  UnmarshalMap : list byte -> result (gmap string any);
  UnmarshalV1 : list byte -> result encryptedKeyJSONV1.t;
  UnmarshalV3 : list byte -> result encryptedKeyJSONV3.t;
}.
End json.

(** Modelled from the spec: the constant is declared outside the patch;
    the spec fixes the derived key at 32 bytes. *)
Definition scryptDKLen : Z := 32.

Definition keyHeaderKDF : string := "scrypt".

(** The conversion [uint32(f)] of a [float64]: the fraction is discarded;
    Go leaves the result for a value outside the range to the
    implementation, here it wraps. *)
Definition uint32_of_float64 (f : Q) : Z :=
  Z.quot (Qnum f) (Z.pos (Qden f)) mod 2 ^ 32.

(** ** The authenticated-encryption engine (keystore_passphrase.go) *)

Section Engine.
Context `{!scrypt.API} `{!crypto.API} `{!Upstream} `{!extkeys.API}.

(** [salt] and [iv] are what [randentropy.GetEntropyCSPRNG(32)] and
    [randentropy.GetEntropyCSPRNG(aes.BlockSize)] return in this call. *)
Definition EncryptExtendedKey (extKey : option extkeys.ExtendedKey)
    (auth : string) (scryptN scryptP : Z) (salt iv : list byte)
    : result cryptoJSON.t :=
  match extKey with
  | None => Ok cryptoJSON_zero
  | Some extKey =>
      let authArray := list_byte_of_string auth in
      derivedKey ← scrypt.Key authArray salt scryptN scryptR scryptP scryptDKLen;
      encryptKey ← slice derivedKey 0 16;
      let keyBytes := list_byte_of_string (extkeys.String extKey) in
      cipherText ← aesCTRXOR encryptKey keyBytes iv;
      macKey ← slice derivedKey 16 32;
      let mac := crypto.Keccak256 (macKey ++ cipherText) in
      let scryptParamsJSON : gmap string any :=
        <["salt" := AString (hex.EncodeToString salt)]>
        (<["dklen" := AInt scryptDKLen]>
        (<["p" := AInt scryptP]>
        (<["r" := AInt scryptR]>
        (<["n" := AInt scryptN]> ∅)))) in
      let cipherParamsJSON := {| cipherparamsJSON.IV := hex.EncodeToString iv |} in
      Ok {| cryptoJSON.Cipher := "aes-128-ctr";
            cryptoJSON.CipherText := hex.EncodeToString cipherText;
            cryptoJSON.CipherParams := cipherParamsJSON;
            cryptoJSON.KDF := "scrypt";
            cryptoJSON.KDFParams := scryptParamsJSON;
            cryptoJSON.MAC := hex.EncodeToString mac |}
  end.

(** [x.(string)] on a map entry: a panic unless the entry is a string. *)
Definition assertString (x : option any) : result string :=
  match x with
  | Some (AString s) => Ok s
  | _ => Err (ErrPanic "interface conversion: not a string")
  end.

(** [ensureInt(x)]: an [int], or a [float64] converted to one. *)
Definition ensureInt (x : option any) : result Z :=
  match x with
  | Some (AInt n) => Ok n
  | Some (AFloat64 f) => Ok (Z.quot (Qnum f) (Z.pos (Qden f)))
  | _ => Err (ErrPanic "interface conversion: not a float64")
  end.

(** Modelled from the spec: the patch shows [getKDFKey] up to the decoding
    of the salt. The rest follows section 4.2, decrypt step 3 (the derived
    key is recomputed by the same KDF from the stored salt and cost
    parameters) and section 7 (an unknown KDF identifier is an
    UnsupportedFormatError). *)
Definition getKDFKey (cryptoJSON : cryptoJSON.t) (auth : string) : result (list byte) :=
  let authArray := list_byte_of_string auth in
  saltHex ← assertString (cryptoJSON.KDFParams cryptoJSON !! "salt");
  salt ← hex.DecodeString saltHex;
  dkLen ← ensureInt (cryptoJSON.KDFParams cryptoJSON !! "dklen");
  if decide (cryptoJSON.KDF cryptoJSON = keyHeaderKDF) then
    n ← ensureInt (cryptoJSON.KDFParams cryptoJSON !! "n");
    r ← ensureInt (cryptoJSON.KDFParams cryptoJSON !! "r");
    p ← ensureInt (cryptoJSON.KDFParams cryptoJSON !! "p");
    scrypt.Key authArray salt n r p dkLen
  else Err (ErrUnsupportedKDF (cryptoJSON.KDF cryptoJSON)).

Definition decryptExtendedKey (keyProtected : encryptedKeyJSONV3.t) (auth : string)
    : result (list byte) :=
  let extendedKey := encryptedKeyJSONV3.ExtendedKey keyProtected in
  if decide (String.length (cryptoJSON.CipherText extendedKey) = 0%nat) then
    Ok (list_byte_of_string extkeys.EmptyExtendedKeyString)
  else if decide (encryptedKeyJSONV3.Version keyProtected ≠ version) then
    Err (ErrVersionNotSupported (encryptedKeyJSONV3.Version keyProtected))
  else if decide (cryptoJSON.Cipher extendedKey ≠ "aes-128-ctr") then
    Err (ErrCipherNotSupported (cryptoJSON.Cipher extendedKey))
  else
    mac ← hex.DecodeString (cryptoJSON.MAC extendedKey);
    iv ← hex.DecodeString (cipherparamsJSON.IV (cryptoJSON.CipherParams extendedKey));
    cipherText ← hex.DecodeString (cryptoJSON.CipherText extendedKey);
    derivedKey ← getKDFKey extendedKey auth;
    macKey ← slice derivedKey 16 32;
    let calculatedMAC := crypto.Keccak256 (macKey ++ cipherText) in
    if negb (bool_decide (calculatedMAC = mac)) then Err ErrDecrypt
    else
      encryptKey ← slice derivedKey 0 16;
      aesCTRXOR encryptKey cipherText iv.

(** The MAC [decryptExtendedKey] recomputes for a blob under a passphrase:
    its steps from the decoding of the ciphertext to [calculatedMAC]. *)
Definition calculatedMAC (extendedKey : cryptoJSON.t) (auth : string)
    : result (list byte) :=
  cipherText ← hex.DecodeString (cryptoJSON.CipherText extendedKey);
  derivedKey ← getKDFKey extendedKey auth;
  macKey ← slice derivedKey 16 32;
  Ok (crypto.Keccak256 (macKey ++ cipherText)).

(** What the theorems assume of [scrypt.Key] and [aesCTRXOR]. *)

(** [scrypt.Key] returns [keyLen] bytes. *)
Definition scrypt_Key_length : Prop :=
  ∀ password salt N r p keyLen dk,
    scrypt.Key password salt N r p keyLen = Ok dk → length dk = Z.to_nat keyLen.


(** The output of [aesCTRXOR] is as long as its input (a stream cipher). *)
Definition aesCTRXOR_length : Prop :=
  ∀ key inText iv outText,
    aesCTRXOR key inText iv = Ok outText → length outText = length inText.

(** Applying [aesCTRXOR] twice under one key and IV gives the input back. *)
Definition aesCTRXOR_involutive : Prop :=
  ∀ key inText iv outText,
    aesCTRXOR key inText iv = Ok outText → aesCTRXOR key outText iv = Ok inText.

End Engine.

(** ** Deriving a key from an extended key (key.go) *)

Section Deriver.
Context `{!crypto.API} `{!extkeys.API}.

(** [id] is what [uuid.NewRandom()] returns in this call. The key object
    made by [extChild1.ToECDSA()] is allocated in [h]. On an error the
    function returns [&Key{}] next to it. *)
Definition newKeyFromExtendedKey (extKey : extkeys.ExtendedKey) (id : list byte)
    (h : heap) : (Key.t * option error) * heap :=
  let children :=
    if decide (extkeys.Depth extKey = 0) then
      extChild1 ← extkeys.BIP44Child extKey extkeys.CoinTypeETH 0;
      extChild2 ← extkeys.BIP44Child extKey extkeys.CoinTypeETH 1;
      Ok (extChild1, extChild2)
    else Ok (extKey, extKey) in
  match children with
  | Err err => ((Key_zero, Some err), h)
  | Ok (extChild1, extChild2) =>
      let (privateKeyECDSA, h) := alloc h (extkeys.ToECDSA extChild1) in
      let key :=
        {| Key.Id := id;
           Key.Address :=
             crypto.PubkeyToAddress (ecdsa.PublicKey (extkeys.ToECDSA extChild1));
           Key.PrivateKey := Some privateKeyECDSA;
           Key.ExtendedKey := Some extChild2;
           Key.SubAccountIndex := 0 |} in
      ((key, None), h)
  end.

(** What the theorems assume of package extkeys. *)

(** A derived key records the index it was derived at (with or without the
    hardened bit). *)
Definition BIP44Child_records_index : Prop :=
  ∀ k coinType i child,
    extkeys.BIP44Child k coinType i = Ok child →
    extkeys.ChildNumber child mod 2 ^ 31 = i mod 2 ^ 31.

(** The sentinel string parses to the zero-valued key. *)
Definition NewKeyFromString_empty : Prop :=
  extkeys.NewKeyFromString extkeys.EmptyExtendedKeyString = Ok (Some emptyExtendedKey).

(** A nil error of [NewKeyFromString] comes with a non-nil key. *)
Definition NewKeyFromString_not_nil : Prop :=
  ∀ s r, extkeys.NewKeyFromString s = Ok r → r ≠ None.

End Deriver.

(** ** Decoding a persisted record (keystore_passphrase.go) *)

Section Serialization.
Context `{!scrypt.API} `{!crypto.API} `{!Upstream} `{!extkeys.API} `{!json.API}.

(** [version, ok := m["version"].(string); ok && version == "1"]. *)
Definition isVersion1 (x : option any) : bool :=
  match x with
  | Some (AString version) => bool_decide (version = "1")
  | _ => false
  end.

(** The key object made by [crypto.ToECDSAUnsafe(keyBytes)] is allocated
    in [h]. *)
Definition DecryptKey (keyjson : list byte) (auth : string) (h : heap)
    : result (Key.t * heap) :=
  m ← json.UnmarshalMap keyjson;
  let subAccountIndex : Q :=
    match m !! "subaccountindex" with
    | Some (AFloat64 f) => f
    | _ => 0%Q
    end in
  '(keyBytes, keyId, extKey) ←
    (if isVersion1 (m !! "version") then
       k ← json.UnmarshalV1 keyjson;
       '(keyBytes, keyId) ← decryptKeyV1 k auth;
       extKey ← extkeys.NewKeyFromString extkeys.EmptyExtendedKeyString;
       Ok (keyBytes, keyId, extKey)
     else
       k ← json.UnmarshalV3 keyjson;
       '(keyBytes, keyId) ← decryptKeyV3 k auth;
       extKeyBytes ← decryptExtendedKey k auth;
       extKey ← extkeys.NewKeyFromString (string_of_list_byte extKeyBytes);
       Ok (keyBytes, keyId, extKey));
  let (key, h) := alloc h (crypto.ToECDSAUnsafe keyBytes) in
  Ok ({| Key.Id := keyId;
         Key.Address :=
           crypto.PubkeyToAddress (ecdsa.PublicKey (crypto.ToECDSAUnsafe keyBytes));
         Key.PrivateKey := Some key;
         Key.ExtendedKey := extKey;
         Key.SubAccountIndex := uint32_of_float64 subAccountIndex |}, h).

End Serialization.

(** ** The vault operations (keystore.go) *)

(** The interface [keyStore] of the package ([GetKey], [StoreKey],
    [JoinPath]) over the state [S] of what it persists. [GetKey] returns
    a pointer to a new key, so it allocates; [StoreKey] reads the key
    object it is given. *)
Class keyStore (S : Type) : Type := {
  GetKey : S -> heap -> list byte -> string -> string -> result (Key.t * heap);
  StoreKey : S -> heap -> string -> Key.t -> string -> S * option error;
  JoinPath : S -> string -> string;
}.

(** The methods of [accountCache] the patch calls, over the state [C] of
    the cache. [hasAddress] and [maybeReload] may rescan the key
    directory, so they read the storage and return the cache they leave. *)
Class accountCache (C S : Type) : Type := {
  hasAddress : C -> S -> list byte -> bool * C;
  maybeReload : C -> S -> C;
  find : C -> accounts.Account -> accounts.Account * option error;
  add : C -> accounts.Account -> C;
}.

Record KeyStore (C S : Type) : Type := { storage : S; cache : C }.
Arguments storage {C S} _.
Arguments cache {C S} _.

(** [zeroKey] overwrites every word of [k.D] in place. *)
Definition zeroKey (k : option nat) (h : heap) : heap :=
  match k with
  | None => h
  | Some l =>
      alter (fun key => {| ecdsa.PublicKey := ecdsa.PublicKey key;
                          ecdsa.D := map (fun _ => 0) (ecdsa.D key) |}) l h
  end.

Section Vault.
Context {C S : Type} `{!keyStore S} `{!accountCache C S}.
Context `{!crypto.API} `{!Upstream} `{!extkeys.API}.

(** Modelled from the spec: [ks.Find] and [ks.getDecryptedKey] are not in
    the patch. Section 4.3: the persisted record is located by address
    (the cache is reloaded if stale, then searched, as [ImportExtendedKey]
    does in the patch) and decrypted with the passphrase. *)
Definition getDecryptedKey (ks : KeyStore C S) (h : heap) (a : accounts.Account)
    (auth : string) : result (accounts.Account * Key.t) * KeyStore C S * heap :=
  let c := maybeReload (cache ks) (storage ks) in
  let ks := {| storage := storage ks; cache := c |} in
  let (a, err) := find c a in
  match err with
  | Some err => (Err err, ks, h)
  | None =>
      match GetKey (storage ks) h (accounts.Address a)
              (accounts.URL.Path (accounts.URL a)) auth with
      | Err err => (Err err, ks, h)
      | Ok (key, h) => (Ok (a, key), ks, h)
      end
  end.


(** [importKey]: the patch shows its first and last lines; between them
    the account is stored and, on success, added to the cache. [now] is
    the clock reading of [keyFileName]. *)
Definition importKey (ks : KeyStore C S) (h : heap) (key : Key.t)
    (passphrase : string) (now : Z)
    : (accounts.Account * option error) * KeyStore C S * heap :=
  let a :=
    {| accounts.Address := Key.Address key;
       accounts.URL :=
         {| accounts.URL.Scheme := KeyStoreScheme;
            accounts.URL.Path :=
              JoinPath (storage ks) (keyFileName now (Key.Address key)) |} |} in
  match StoreKey (storage ks) h (accounts.URL.Path (accounts.URL a)) key passphrase with
  | (s, Some err) => ((Account_zero, Some err), {| storage := s; cache := cache ks |}, h)
  | (s, None) => ((a, None), {| storage := s; cache := add (cache ks) a |}, h)
  end.

Definition ImportExtendedKey (ks : KeyStore C S) (h : heap)
    (extKey : extkeys.ExtendedKey) (passphrase : string) (id : list byte) (now : Z)
    : (accounts.Account * option error) * KeyStore C S * heap :=
  let '((key, err), h) := newKeyFromExtendedKey extKey id h in
  match err with
  | Some err =>
      let h := zeroKey (Key.PrivateKey key) h in
      ((Account_zero, Some err), ks, h)
  | None =>
      let (tracked, c) := hasAddress (cache ks) (storage ks) (Key.Address key) in
      if tracked then
        let a := {| accounts.Address := Key.Address key;
                    accounts.URL := accounts.URL Account_zero |} in
        let c := maybeReload c (storage ks) in
        let ks := {| storage := storage ks; cache := c |} in
        let (a, err) := find c a in
        match err with
        | Some err =>
            let h := zeroKey (Key.PrivateKey key) h in
            ((a, Some err), ks, h)
        | None => ((a, None), ks, h)
        end
      else
        importKey {| storage := storage ks; cache := c |} h key passphrase now
  end.

(** [key.SubAccountIndex++] on a [uint32]. *)
Definition IncSubAccountIndex (ks : KeyStore C S) (h : heap) (a : accounts.Account)
    (passphrase : string) : option error * KeyStore C S * heap :=
  match getDecryptedKey ks h a passphrase with
  | (Err err, ks, h) => (Some err, ks, h)
  | (Ok (a, key), ks, h) =>
      let key :=
        {| Key.Id := Key.Id key; Key.Address := Key.Address key;
           Key.PrivateKey := Key.PrivateKey key;
           Key.ExtendedKey := Key.ExtendedKey key;
           Key.SubAccountIndex := (Key.SubAccountIndex key + 1) mod 2 ^ 32 |} in
      let (s, err) :=
        StoreKey (storage ks) h (accounts.URL.Path (accounts.URL a)) key passphrase in
      (err, {| storage := s; cache := cache ks |}, h)
  end.



(** What the theorems assume of the collaborators. *)

(** The cache of [ks] tracks the address [addr] as the account [a]: asked
    the way [ImportExtendedKey] asks, it reports the address and finds [a]. *)
Definition tracked (ks : KeyStore C S) (addr : list byte) (a : accounts.Account)
    : Prop :=
  ∃ c, hasAddress (cache ks) (storage ks) addr = (true, c) ∧
       find (maybeReload c (storage ks))
         {| accounts.Address := addr; accounts.URL := accounts.URL Account_zero |}
       = (a, None).


End Vault.

(** ** A small instance of the interfaces

    Executable stand-ins for the functions of other packages, on which the
    embedding can be run: a byte-wise XOR stream for AES-CTR, simple
    keyed mixes for scrypt and Keccak, an in-memory key storage and
    account cache. They show that what the theorems assume can be met, and
    supply the concrete runs below; they say nothing about the real
    primitives. *)

Module Sample.

Definition byte_xor (a b : byte) : byte :=
  let '(a0, (a1, (a2, (a3, (a4, (a5, (a6, a7))))))) := Byte.to_bits a in
  let '(b0, (b1, (b2, (b3, (b4, (b5, (b6, b7))))))) := Byte.to_bits b in
  Byte.of_bits
    (xorb a0 b0, (xorb a1 b1, (xorb a2 b2, (xorb a3 b3,
    (xorb a4 b4, (xorb a5 b5, (xorb a6 b6, xorb a7 b7))))))).

Definition byte_of_Z (z : Z) : byte :=
  match Byte.of_N (Z.to_N (z mod 256)) with
  | Some b => b
  | None => x00
  end.

(** The byte of [l] at position [i], reading [l] in a cycle. *)
Definition cyclic (l : list byte) (i : nat) : byte := nth (i mod length l) l x00.

Fixpoint xor_stream (key iv : list byte) (i : nat) (text : list byte) : list byte :=
  match text with
  | [] => []
  | b :: text =>
      byte_xor b (byte_xor (cyclic key i) (cyclic iv i)) :: xor_stream key iv (S i) text
  end.

Definition ctrXOR (key inText iv : list byte) : result (list byte) :=
  if negb (bool_decide (length key ∈ [16; 24; 32]%nat)) then
    Err (ErrExternal "crypto/aes: invalid key size")
  else if negb (length iv =? 16)%nat then
    Err (ErrPanic "cipher.NewCTR: IV length must equal block size")
  else Ok (xor_stream key iv 0 inText).

Definition scrypt_Key (password salt : list byte) (N r p keyLen : Z)
    : result (list byte) :=
  if ((N <=? 1) || negb (Z.land N (N - 1) =? 0))%Z then
    Err (ErrExternal "scrypt: N must be > 1 and a power of 2")
  else if ((r <=? 0) || (p <=? 0) || (2 ^ 30 <=? r * p))%Z then
    Err (ErrExternal "scrypt: parameters are too large")
  else
    Ok (map (λ i, byte_xor (cyclic password i) (cyclic salt (3 * i)))
          (seq 0 (Z.to_nat keyLen))).

Fixpoint absorb (state : list byte) (i : nat) (data : list byte) : list byte :=
  match data with
  | [] => state
  | b :: data =>
      absorb (<[(i mod 32)%nat := byte_xor (nth (i mod 32) state x00) b]> state)
             (S i) data
  end.

Definition Keccak256 (data : list byte) : list byte :=
  absorb (repeat x00 32) 0 data.

Definition ToECDSAUnsafe (keyBytes : list byte) : ecdsa.PrivateKey :=
  let words := map (λ b, Z.of_N (Byte.to_N b)) keyBytes in
  {| ecdsa.PublicKey := (foldr Z.add 0 words, Z.of_nat (length words));
     ecdsa.D := words |}.

Definition PubkeyToAddress (pub : Z * Z) : list byte :=
  repeat (byte_of_Z (pub.1 + pub.2)) 20.

Definition scrypt_api : scrypt.API := {| scrypt.Key := scrypt_Key |}.

Definition crypto_api : crypto.API :=
  {| crypto.Keccak256 := Keccak256;
     crypto.ToECDSAUnsafe := ToECDSAUnsafe;
     crypto.PubkeyToAddress := PubkeyToAddress |}.

Definition EmptyExtendedKeyString : string := "Zeroed extended key".

Definition BIP44Child (k : extkeys.ExtendedKey) (coinType i : Z)
    : result extkeys.ExtendedKey :=
  if negb (extkeys.IsPrivate k) || negb (extkeys.Depth k =? 0)%Z then
    Err (ErrExternal "invalid master key")
  else
    Ok {| extkeys.KeyData := map (byte_xor (byte_of_Z (coinType + i + 1))) (extkeys.KeyData k);
          extkeys.ChainCode := extkeys.ChainCode k;
          extkeys.Depth := 5;
          extkeys.FingerPrint := take 4 (extkeys.KeyData k);
          extkeys.ChildNumber := i;
          extkeys.IsPrivate := true |}.

Definition ExtendedKey_String (k : extkeys.ExtendedKey) : string :=
  match extkeys.KeyData k with
  | [] => EmptyExtendedKeyString
  | _ => String.append "xprv" (hex.EncodeToString (extkeys.KeyData k))
  end.

Definition NewKeyFromString (key : string) : result (option extkeys.ExtendedKey) :=
  if bool_decide (key = EmptyExtendedKeyString) || bool_decide (key = "") then
    Ok (Some emptyExtendedKey)
  else if String.prefix "xprv" key then
    keyData ← hex.DecodeString (String.substring 4 (String.length key - 4) key);
    Ok (Some {| extkeys.KeyData := keyData; extkeys.ChainCode := [];
                extkeys.Depth := 0; extkeys.FingerPrint := [];
                extkeys.ChildNumber := 0; extkeys.IsPrivate := true |})
  else Err (ErrExternal "invalid extended key").

Definition extkeys_api : extkeys.API :=
  {| extkeys.BIP44Child := BIP44Child;
     extkeys.ToECDSA := λ k, ToECDSAUnsafe (extkeys.KeyData k);
     extkeys.String := ExtendedKey_String;
     extkeys.NewKeyFromString := NewKeyFromString;
     extkeys.EmptyExtendedKeyString := EmptyExtendedKeyString;
     extkeys.CoinTypeETH := 60 |}.

(** A primary-key blob of this instance holds the key bytes in hex and a
    digest of passphrase and key. *)
Definition decryptPrimary (c : cryptoJSON.t) (auth : string) : result (list byte) :=
  keyBytes ← hex.DecodeString (cryptoJSON.CipherText c);
  if bool_decide (cryptoJSON.MAC c
       = hex.EncodeToString (Keccak256 (list_byte_of_string auth ++ keyBytes)))
  then Ok keyBytes else Err ErrDecrypt.

Definition upstream : Upstream :=
  {| version := 3;
     scryptR := 8;
     KeyStoreScheme := "keystore";
     aesCTRXOR := ctrXOR;
     decryptKeyV1 := λ k auth,
       keyBytes ← decryptPrimary (encryptedKeyJSONV1.Crypto k) auth;
       Ok (keyBytes, list_byte_of_string (encryptedKeyJSONV1.Id k));
     decryptKeyV3 := λ k auth,
       keyBytes ← decryptPrimary (encryptedKeyJSONV3.Crypto k) auth;
       Ok (keyBytes, list_byte_of_string (encryptedKeyJSONV3.Id k));
     keyFileName := λ now addr, String.append "UTC--" (hex.EncodeToString addr) |}.

(** The primary-key blob of this instance for a key and a passphrase. *)
Definition primaryBlob (keyBytes : list byte) (auth : string) : cryptoJSON.t :=
  {| cryptoJSON.Cipher := "aes-128-ctr";
     cryptoJSON.CipherText := hex.EncodeToString keyBytes;
     cryptoJSON.CipherParams := {| cipherparamsJSON.IV := "" |};
     cryptoJSON.KDF := "scrypt";
     cryptoJSON.KDFParams := ∅;
     cryptoJSON.MAC :=
       hex.EncodeToString (Keccak256 (list_byte_of_string auth ++ keyBytes)) |}.

(** Two persisted records and a decoder that knows their two documents. *)
Definition legacyRecord : encryptedKeyJSONV1.t :=
  {| encryptedKeyJSONV1.Address := "0a0a";
     encryptedKeyJSONV1.Crypto := primaryBlob [x11; x22; x33] "correct-password";
     encryptedKeyJSONV1.Id := "id-1";
     encryptedKeyJSONV1.Version := "1" |}.

Definition currentRecord : encryptedKeyJSONV3.t :=
  {| encryptedKeyJSONV3.Address := "0b0b";
     encryptedKeyJSONV3.Crypto := primaryBlob [x44; x55; x66] "correct-password";
     encryptedKeyJSONV3.Id := "id-3";
     encryptedKeyJSONV3.Version := 3;
     encryptedKeyJSONV3.ExtendedKey := cryptoJSON_zero;
     encryptedKeyJSONV3.SubAccountIndex := 7 |}.

Definition legacyDocument : list byte := list_byte_of_string "legacy.json".
Definition currentDocument : list byte := list_byte_of_string "current.json".

Definition json_api : json.API :=
  {| json.UnmarshalMap := λ data,
       if bool_decide (data = legacyDocument) then
         Ok (<["version" := AString "1"]> ∅)
       else if bool_decide (data = currentDocument) then
         Ok (<["subaccountindex" := AFloat64 (inject_Z 7)]>
             (<["version" := AFloat64 (inject_Z 3)]> ∅))
       else Err (ErrExternal "invalid character");
     json.UnmarshalV1 := λ data,
       if bool_decide (data = legacyDocument) then Ok legacyRecord
       else Err (ErrExternal "cannot unmarshal");
     json.UnmarshalV3 := λ data,
       if bool_decide (data = currentDocument) then Ok currentRecord
       else Err (ErrExternal "cannot unmarshal") |}.

(** An in-memory storage: under each path the key, its secret and the
    passphrase it was stored with. *)
Definition getKey (s : gmap string (Key.t * ecdsa.PrivateKey * string)) (h : heap)
    (addr : list byte) (filename auth : string) : result (Key.t * heap) :=
  match s !! filename with
  | None => Err (ErrExternal "no such file")
  | Some (key, secret, passphrase) =>
      if negb (bool_decide (passphrase = auth)) then Err ErrDecrypt
      else if negb (bool_decide (Key.Address key = addr)) then
        Err (ErrExternal "key content mismatch")
      else
        let (l, h) := alloc h secret in
        Ok ({| Key.Id := Key.Id key; Key.Address := Key.Address key;
               Key.PrivateKey := Some l; Key.ExtendedKey := Key.ExtendedKey key;
               Key.SubAccountIndex := Key.SubAccountIndex key |}, h)
  end.

Definition storeKey (s : gmap string (Key.t * ecdsa.PrivateKey * string)) (h : heap)
    (filename : string) (key : Key.t) (auth : string)
    : gmap string (Key.t * ecdsa.PrivateKey * string) * option error :=
  match Key.PrivateKey key ≫= (h !!.) with
  | Some secret => (<[filename := (key, secret, auth)]> s, None)
  | None => (s, Some (ErrPanic "nil pointer dereference"))
  end.

Definition keyStore_api : keyStore (gmap string (Key.t * ecdsa.PrivateKey * string)) :=
  {| GetKey := getKey;
     StoreKey := storeKey;
     JoinPath := λ _ name, String.append "keystore/" name |}.

(** An account cache: the list of the accounts added, searched by address. *)
Definition findByAddress (c : list accounts.Account) (a : accounts.Account)
    : accounts.Account * option error :=
  match filter (λ x, accounts.Address x = accounts.Address a) c with
  | [x] => (x, None)
  | [] => (Account_zero, Some (ErrExternal "no key for given address or file"))
  | _ => (Account_zero, Some (ErrExternal "multiple keys match address"))
  end.

Definition accountCache_api
    : accountCache (list accounts.Account)
        (gmap string (Key.t * ecdsa.PrivateKey * string)) :=
  {| hasAddress := λ c _ addr,
       (bool_decide (Exists (λ x, accounts.Address x = addr) c), c);
     maybeReload := λ c _, c;
     find := findByAddress;
     add := λ c a, a :: c |}.

(** The inputs of the runs. *)
Definition masterKey : extkeys.ExtendedKey :=
  {| extkeys.KeyData := [x01; x02; x03; x04]; extkeys.ChainCode := [x0a; x0b];
     extkeys.Depth := 0; extkeys.FingerPrint := []; extkeys.ChildNumber := 0;
     extkeys.IsPrivate := true |}.

Definition salt : list byte := repeat x07 32.
Definition iv : list byte := repeat x09 16.

#[local] Existing Instances scrypt_api crypto_api upstream extkeys_api json_api
  keyStore_api accountCache_api.

(** The blob [EncryptExtendedKey] returns for a key under a passphrase, at
    cost parameters N = 2, p = 1. *)
Definition encrypted (extKey : option extkeys.ExtendedKey) (auth : string)
    : cryptoJSON.t :=
  match EncryptExtendedKey extKey auth 2 1 salt iv with
  | Ok blob => blob
  | Err _ => cryptoJSON_zero
  end.

(** A record of version [v] around an extended-key blob. *)
Definition record (blob : cryptoJSON.t) (v : Z) : encryptedKeyJSONV3.t :=
  {| encryptedKeyJSONV3.Address := "0b0b";
     encryptedKeyJSONV3.Crypto := primaryBlob [x44; x55; x66] "correct-password";
     encryptedKeyJSONV3.Id := "id-3";
     encryptedKeyJSONV3.Version := v;
     encryptedKeyJSONV3.ExtendedKey := blob;
     encryptedKeyJSONV3.SubAccountIndex := 0 |}.

(** A key store with nothing in it. *)
Definition emptyKeyStore
    : KeyStore (list accounts.Account) (gmap string (Key.t * ecdsa.PrivateKey * string)) :=
  {| storage := ∅; cache := [] |}.

(** The key derived from [masterKey] in the empty memory, and the memory
    with its secret. *)
Definition derivedKey : Key.t := (newKeyFromExtendedKey masterKey [x2a] ∅).1.1.
Definition derivedHeap : heap := (newKeyFromExtendedKey masterKey [x2a] ∅).2.

(** The account [ImportExtendedKey] makes for [derivedKey], and the key
    store after that import. *)
Definition importedAccount : accounts.Account :=
  (ImportExtendedKey emptyKeyStore ∅ masterKey "correct-password" [x2a] 0).1.1.1.

Definition importedKeyStore
    : KeyStore (list accounts.Account) (gmap string (Key.t * ecdsa.PrivateKey * string)) :=
  (ImportExtendedKey emptyKeyStore ∅ masterKey "correct-password" [x2a] 0).1.2.

(** A key store holding one account whose sub-account index is [index]. *)
Definition keyStoreAt (index : Z)
    : KeyStore (list accounts.Account) (gmap string (Key.t * ecdsa.PrivateKey * string)) :=
  {| storage :=
       {[ accounts.URL.Path (accounts.URL importedAccount) :=
            ({| Key.Id := [x2a]; Key.Address := accounts.Address importedAccount;
                Key.PrivateKey := None; Key.ExtendedKey := Some emptyExtendedKey;
                Key.SubAccountIndex := index |},
             ToECDSAUnsafe [x11; x22; x33], "correct-password") ]};
     cache := [importedAccount] |}.

(** One call of [IncSubAccountIndex] on that key store, and three calls in
    a row from index 7. *)
Definition afterIncrement (index : Z)
    : option error
      * KeyStore (list accounts.Account) (gmap string (Key.t * ecdsa.PrivateKey * string))
      * heap :=
  IncSubAccountIndex (keyStoreAt index) ∅ importedAccount "correct-password".


End Sample.

(** ** Writing a record (keystore_passphrase.go) *)

(** What [EncryptKey] uses besides the engine: its own first half, which
    the patch leaves as it was and does not show ([encryptPrimaryKey]: from
    the private key, the passphrase, the cost parameters and the salt and
    IV drawn for it to [cryptoStruct]), [key.Id.String()] and
    [json.Marshal] at the type of the record. *)
Class UpstreamEncrypt : Type := {
  encryptPrimaryKey :
    ecdsa.PrivateKey -> string -> Z -> Z -> list byte -> list byte -> result cryptoJSON.t;
  uuid_String : list byte -> string;
  json_Marshal : encryptedKeyJSONV3.t -> result (list byte);
}.

Section Writing.
Context `{!scrypt.API} `{!crypto.API} `{!Upstream} `{!extkeys.API} `{!json.API}.
Context `{!UpstreamEncrypt}.



(** The key's address is the address of the public key of the object its
    private key points to. *)
Definition addressed (h : heap) (key : Key.t) : Prop :=
  ∃ l privateKey,
    Key.PrivateKey key = Some l ∧ h !! l = Some privateKey ∧
    Key.Address key = crypto.PubkeyToAddress (ecdsa.PublicKey privateKey).

End Writing.

(** ** The topic register (geth/node/topic_register.go)

    The embedding follows the goroutine that calls [Start] and [Stop]. Of
    a [go] statement it records that the goroutine was started, with its
    topic; of [r.wg.Wait()] it records nothing: when the started
    goroutines return is decided by [discv5.RegisterTopic]. Channels are
    objects of the run-time, open ([false]) or closed ([true]); closing a
    nil or a closed channel is a panic. Nothing sends on [r.quit], so a
    receive from it is ready exactly when it is closed. *)

Module Register.
Record t : Type := { topics : list string; wg : nat; quit : option nat }.
End Register.

Record Runtime : Type := { chans : gmap nat bool; started : list string }.

(** Declared elsewhere in package node. *)
Definition ErrDiscv5NotRunning : error := ErrExternal "discovery v5 is not running".

Definition NewResigter (topics : list string) : Register.t :=
  {| Register.topics := topics; Register.wg := 0; Register.quit := None |}.

(** [close(c)]. *)
Definition close (c : option nat) (chans : gmap nat bool) : result (gmap nat bool) :=
  match c with
  | None => Err (ErrPanic "close of nil channel")
  | Some c =>
      match chans !! c with
      | Some false => Ok (<[c := true]> chans)
      | _ => Err (ErrPanic "close of closed channel")
      end
  end.

(** One turn of the loop of [Start]: [r.wg.Add(1)] and the [go] statement. *)
Definition Start_topic (st : Register.t * Runtime) (topic : string)
    : Register.t * Runtime :=
  ({| Register.topics := Register.topics st.1;
      Register.wg := Datatypes.S (Register.wg st.1);
      Register.quit := Register.quit st.1 |},
   {| chans := chans st.2; started := started st.2 ++ [topic] |}).

(** [discV5] tells whether [server.DiscV5] is non-nil. *)
Definition Start (r : Register.t) (w : Runtime) (discV5 : bool)
    : Register.t * Runtime * option error :=
  if negb discV5 then (r, w, Some ErrDiscv5NotRunning)
  else
    let c := fresh (dom (chans w)) in
    let r := {| Register.topics := Register.topics r; Register.wg := Register.wg r;
                Register.quit := Some c |} in
    let w := {| chans := <[c := false]> (chans w); started := started w |} in
    (foldl Start_topic (r, w) (Register.topics r), None).

Definition Stop (r : Register.t) (w : Runtime) : result (Register.t * Runtime) :=
  match Register.quit r with
  | None => Ok (r, w)
  | Some c =>
      if default false (chans w !! c) then Ok (r, w)
      else
        chans' ← close (Register.quit r) (chans w);
        Ok (r, {| chans := chans'; started := started w |})
  end.

(** Calls made one after the other on one register; the error [Start]
    returns is the caller's to read, a panic ends the run. *)
Inductive call : Type :=
| CallStart (discV5 : bool)
| CallStop.

Fixpoint calls (cs : list call) (r : Register.t) (w : Runtime)
    : result (Register.t * Runtime) :=
  match cs with
  | [] => Ok (r, w)
  | CallStart discV5 :: cs =>
      let '(r, w, _) := Start r w discV5 in calls cs r w
  | CallStop :: cs =>
      '(r, w) ← Stop r w; calls cs r w
  end.

(** The register's channel is nil or a channel of the run-time. *)
Definition quit_allocated (r : Register.t) (w : Runtime) : Prop :=
  ∀ c, Register.quit r = Some c → is_Some (chans w !! c).

(** ** More of the instance *)

Module Sample2.

#[local] Existing Instances Sample.scrypt_api Sample.crypto_api Sample.upstream
  Sample.extkeys_api.

#[local] Instance Q_eq_dec : EqDecision Q.
Proof. solve_decision. Defined.

#[local] Instance any_eq_dec : EqDecision any.
Proof. solve_decision. Defined.

#[local] Instance cipherparamsJSON_eq_dec : EqDecision cipherparamsJSON.t.
Proof. solve_decision. Defined.

#[local] Instance cryptoJSON_eq_dec : EqDecision cryptoJSON.t.
Proof. solve_decision. Defined.

#[local] Instance encryptedKeyJSONV3_eq_dec : EqDecision encryptedKeyJSONV3.t.
Proof. solve_decision. Defined.

(** A master key as [Sample.NewKeyFromString] reads it back from its
    string: with no chain code. *)
Definition plainKey : extkeys.ExtendedKey :=
  {| extkeys.KeyData := [x01; x02; x03; x04]; extkeys.ChainCode := [];
     extkeys.Depth := 0; extkeys.FingerPrint := []; extkeys.ChildNumber := 0;
     extkeys.IsPrivate := true |}.


Definition storedKey : Key.t :=
  {| Key.Id := [x2a];
     Key.Address :=
       Sample.PubkeyToAddress
         (ecdsa.PublicKey (Sample.ToECDSAUnsafe [x44; x55; x66]));
     Key.PrivateKey := Some 0%nat;
     Key.ExtendedKey := Some plainKey;
     Key.SubAccountIndex := 41 |}.

(** The record [EncryptKey] builds for [storedKey], and its document. *)
Definition storedRecord : encryptedKeyJSONV3.t :=
  {| encryptedKeyJSONV3.Address := hex.EncodeToString (Key.Address storedKey);
     encryptedKeyJSONV3.Crypto := Sample.primaryBlob [x44; x55; x66] "correct-password";
     encryptedKeyJSONV3.Id := "2a";
     encryptedKeyJSONV3.Version := 3;
     encryptedKeyJSONV3.ExtendedKey :=
       Sample.encrypted (Some plainKey) "correct-password";
     encryptedKeyJSONV3.SubAccountIndex := 41 |}.

Definition storedDocument : list byte := list_byte_of_string "stored.json".

(** The same record with the extended key encrypted under another
    passphrase than the primary key, and its document. *)
Definition mixedRecord : encryptedKeyJSONV3.t :=
  {| encryptedKeyJSONV3.Address := encryptedKeyJSONV3.Address storedRecord;
     encryptedKeyJSONV3.Crypto := encryptedKeyJSONV3.Crypto storedRecord;
     encryptedKeyJSONV3.Id := "2a";
     encryptedKeyJSONV3.Version := 3;
     encryptedKeyJSONV3.ExtendedKey :=
       Sample.encrypted (Some plainKey) "another-password";
     encryptedKeyJSONV3.SubAccountIndex := 41 |}.

Definition mixedDocument : list byte := list_byte_of_string "mixed.json".

(** An encoder that writes the one record it knows, and a decoder that
    reads the two documents. *)
Definition encrypt_api : UpstreamEncrypt :=
  {| encryptPrimaryKey := λ privateKey auth _ _ _ _,
       Ok (Sample.primaryBlob
             (map (λ w, Sample.byte_of_Z w) (ecdsa.D privateKey)) auth);
     uuid_String := hex.EncodeToString;
     json_Marshal := λ k,
       if bool_decide (k = storedRecord) then Ok storedDocument
       else Err (ErrExternal "json: unsupported value") |}.

Definition json_api : json.API :=
  {| json.UnmarshalMap := λ data,
       if bool_decide (data = storedDocument) || bool_decide (data = mixedDocument) then
         Ok (<["subaccountindex" := AFloat64 (inject_Z 41)]>
             (<["version" := AFloat64 (inject_Z 3)]> ∅))
       else Err (ErrExternal "invalid character");
     json.UnmarshalV1 := λ data, Err (ErrExternal "cannot unmarshal");
     json.UnmarshalV3 := λ data,
       if bool_decide (data = storedDocument) then Ok storedRecord
       else if bool_decide (data = mixedDocument) then Ok mixedRecord
       else Err (ErrExternal "cannot unmarshal") |}.

(** A version-3 record whose stored MAC is not hexadecimal. *)
Definition malformedRecord : encryptedKeyJSONV3.t :=
  Sample.record
    {| cryptoJSON.Cipher := "aes-128-ctr"; cryptoJSON.CipherText := "0a0b";
       cryptoJSON.CipherParams := {| cipherparamsJSON.IV := "00" |};
       cryptoJSON.KDF := "scrypt"; cryptoJSON.KDFParams := ∅;
       cryptoJSON.MAC := "zz" |} 3.

(** A master key that is not private: its derivation fails. *)
Definition publicKey : extkeys.ExtendedKey :=
  {| extkeys.KeyData := [x01; x02]; extkeys.ChainCode := []; extkeys.Depth := 0;
     extkeys.FingerPrint := []; extkeys.ChildNumber := 0;
     extkeys.IsPrivate := false |}.


End Sample2.

(** * Properties

    Everything above is the embedding; everything below is proved of it. *)

(** ** encoding/hex round trip *)

Lemma hex_decode_encode_byte (b : byte) (s : string) :
  hex.DecodeString (String.append (hex.EncodeToString [b]) s) =
  match hex.DecodeString s with Ok bs => Ok (b :: bs) | Err e => Err e end.
Proof. destruct b; reflexivity. Qed.

Lemma hex_DecodeString_EncodeToString (bs : list byte) :
  hex.DecodeString (hex.EncodeToString bs) = Ok bs.
Proof.
  induction bs as [|b bs IH]; [reflexivity|].
  change (hex.EncodeToString (b :: bs))
    with (String.append (hex.EncodeToString [b]) (hex.EncodeToString bs)).
  rewrite hex_decode_encode_byte, IH. reflexivity.
Qed.

(** ** Properties of the engine *)

Lemma hex_EncodeToString_length (bs : list byte) :
  String.length (hex.EncodeToString bs) = (2 * length bs)%nat.
Proof. induction bs as [|b bs IH]; simpl; lia. Qed.

Lemma slice_Ok (b : list byte) (lo hi : nat) :
  (hi <= length b)%nat → slice b lo hi = Ok (take (hi - lo) (drop lo b)).
Proof.
  intros Hle. unfold slice.
  destruct (Nat.leb_spec hi (length b)) as [_|Hlt]; [reflexivity|lia].
Qed.

Section EngineProperties.
Context `{!scrypt.API} `{!crypto.API} `{!Upstream} `{!extkeys.API}.

(** What a blob returned for a non-nil key is made of. *)
Lemma EncryptExtendedKey_Some_inv (extKey : extkeys.ExtendedKey) (auth : string)
    (scryptN scryptP : Z) (salt iv : list byte) (blob : cryptoJSON.t) :
  EncryptExtendedKey (Some extKey) auth scryptN scryptP salt iv = Ok blob →
  ∃ derivedKey encryptKey macKey cipherText,
    scrypt.Key (list_byte_of_string auth) salt scryptN scryptR scryptP scryptDKLen
      = Ok derivedKey ∧
    slice derivedKey 0 16 = Ok encryptKey ∧
    slice derivedKey 16 32 = Ok macKey ∧
    aesCTRXOR encryptKey (list_byte_of_string (extkeys.String extKey)) iv
      = Ok cipherText ∧
    blob =
      {| cryptoJSON.Cipher := "aes-128-ctr";
         cryptoJSON.CipherText := hex.EncodeToString cipherText;
         cryptoJSON.CipherParams := {| cipherparamsJSON.IV := hex.EncodeToString iv |};
         cryptoJSON.KDF := "scrypt";
         cryptoJSON.KDFParams :=
           <["salt" := AString (hex.EncodeToString salt)]>
           (<["dklen" := AInt scryptDKLen]>
           (<["p" := AInt scryptP]>
           (<["r" := AInt scryptR]>
           (<["n" := AInt scryptN]> ∅))));
         cryptoJSON.MAC :=
           hex.EncodeToString (crypto.Keccak256 (macKey ++ cipherText)) |}.
Proof.
  unfold EncryptExtendedKey. unfold_bind.
  destruct (scrypt.Key _ _ _ _ _ _) as [derivedKey|] eqn:Hdk; [|discriminate].
  destruct (slice derivedKey 0 16) as [encryptKey|] eqn:Hek; [|discriminate].
  destruct (aesCTRXOR _ _ _) as [cipherText|] eqn:Hct; [|discriminate].
  destruct (slice derivedKey 16 32) as [macKey|] eqn:Hmk; [|discriminate].
  intros [= <-]. exists derivedKey, encryptKey, macKey, cipherText. done.
Qed.

(** On a blob made by [EncryptExtendedKey], [getKDFKey] calls [scrypt.Key]
    with the salt and cost parameters of the encryption. *)
Lemma getKDFKey_of_encrypted (auth : string) (scryptN scryptP : Z) (salt : list byte)
    (cipher cipherText mac : string) (params : cipherparamsJSON.t) :
  getKDFKey
    {| cryptoJSON.Cipher := cipher; cryptoJSON.CipherText := cipherText;
       cryptoJSON.CipherParams := params; cryptoJSON.KDF := "scrypt";
       cryptoJSON.KDFParams :=
         <["salt" := AString (hex.EncodeToString salt)]>
         (<["dklen" := AInt scryptDKLen]>
         (<["p" := AInt scryptP]>
         (<["r" := AInt scryptR]>
         (<["n" := AInt scryptN]> ∅))));
       cryptoJSON.MAC := mac |} auth
  = scrypt.Key (list_byte_of_string auth) salt scryptN scryptR scryptP scryptDKLen.
Proof.
  unfold getKDFKey. simpl. unfold_bind.
  rewrite lookup_insert_eq. simpl.
  rewrite hex_DecodeString_EncodeToString.
  repeat (first [rewrite lookup_insert_eq | rewrite lookup_insert_ne by done]; simpl).
  reflexivity.
Qed.

Lemma list_byte_of_string_nil (s : string) : list_byte_of_string s = [] → s = "".
Proof.
  intros Hnil. rewrite <- (string_of_list_byte_of_string s), Hnil. reflexivity.
Qed.

Lemma hex_EncodeToString_empty (bs : list byte) :
  String.length (hex.EncodeToString bs) = 0%nat → bs = [].
Proof. rewrite hex_EncodeToString_length. destruct bs; simpl; [done|lia]. Qed.

Lemma String_length_zero (s : string) : String.length s = 0%nat ↔ s = "".
Proof. destruct s; simpl; split; (done || lia). Qed.

(** Past the format checks, a record whose stored MAC differs from the
    recomputed one is refused with [ErrDecrypt], whatever made them differ. *)
Lemma decryptExtendedKey_mac_mismatch (keyProtected : encryptedKeyJSONV3.t)
    (auth : string) (mac iv m : list byte) :
  cryptoJSON.CipherText (encryptedKeyJSONV3.ExtendedKey keyProtected) ≠ "" →
  encryptedKeyJSONV3.Version keyProtected = version →
  cryptoJSON.Cipher (encryptedKeyJSONV3.ExtendedKey keyProtected) = "aes-128-ctr" →
  hex.DecodeString (cryptoJSON.MAC (encryptedKeyJSONV3.ExtendedKey keyProtected))
    = Ok mac →
  hex.DecodeString
    (cipherparamsJSON.IV
       (cryptoJSON.CipherParams (encryptedKeyJSONV3.ExtendedKey keyProtected)))
    = Ok iv →
  calculatedMAC (encryptedKeyJSONV3.ExtendedKey keyProtected) auth = Ok m →
  m ≠ mac →
  decryptExtendedKey keyProtected auth = Err ErrDecrypt.
Proof.
  intros Hct Hv Hc Hmac Hiv Hcalc Hne.
  unfold decryptExtendedKey. unfold calculatedMAC in Hcalc.
  rewrite decide_False by (rewrite String_length_zero; exact Hct).
  rewrite decide_False by (intros Hn; exact (Hn Hv)).
  rewrite decide_False by (intros Hn; exact (Hn Hc)).
  rewrite Hmac, Hiv. unfold_bind.
  destruct (hex.DecodeString (cryptoJSON.CipherText _)) as [cipherText|]; [|discriminate].
  destruct (getKDFKey _ _) as [derivedKey|]; [|discriminate].
  destruct (slice derivedKey 16 32) as [macKey|]; [|discriminate].
  injection Hcalc as <-.
  rewrite bool_decide_eq_false_2 by exact Hne. reflexivity.
Qed.

(** C1. Round trip: a blob that [EncryptExtendedKey] returns for a key and
    a passphrase, placed in a record of the supported version, is decrypted
    by [decryptExtendedKey] under the same passphrase to the bytes of the
    key's string. Assumed of [aesCTRXOR]: it keeps the length of its input
    and undoes itself under one key and IV; of [extkeys.String]: the
    string of this key is not empty. *)
Theorem decryptExtendedKey_EncryptExtendedKey
    (extKey : extkeys.ExtendedKey) (auth : string) (scryptN scryptP : Z)
    (salt iv : list byte) (blob : cryptoJSON.t)
    (keyProtected : encryptedKeyJSONV3.t) :
  aesCTRXOR_length →
  aesCTRXOR_involutive →
  extkeys.String extKey ≠ "" →
  EncryptExtendedKey (Some extKey) auth scryptN scryptP salt iv = Ok blob →
  encryptedKeyJSONV3.Version keyProtected = version →
  encryptedKeyJSONV3.ExtendedKey keyProtected = blob →
  decryptExtendedKey keyProtected auth
    = Ok (list_byte_of_string (extkeys.String extKey)).
Proof.
  intros Hlen Hinv Hstr Henc Hv Hblob.
  apply EncryptExtendedKey_Some_inv in Henc
    as (derivedKey & encryptKey & macKey & cipherText & Hdk & Hek & Hmk & Hct & ->).
  unfold decryptExtendedKey. rewrite Hblob. cbn [cryptoJSON.CipherText
    cryptoJSON.Cipher cryptoJSON.MAC cryptoJSON.CipherParams cipherparamsJSON.IV].
  rewrite decide_False; last first.
  { intros Hz. apply hex_EncodeToString_empty in Hz. subst cipherText.
    apply Hlen in Hct. simpl in Hct. symmetry in Hct.
    apply length_zero_iff_nil, list_byte_of_string_nil in Hct. done. }
  rewrite decide_False by (intros Hn; exact (Hn Hv)).
  rewrite decide_False by (intros Hn; exact (Hn eq_refl)).
  unfold_bind. rewrite !hex_DecodeString_EncodeToString.
  rewrite getKDFKey_of_encrypted, Hdk, Hmk.
  rewrite bool_decide_eq_true_2 by reflexivity. simpl.
  rewrite Hek. apply Hinv. exact Hct.
Qed.


(** C9. Unsupported format: a record with a non-empty extended-key blob
    whose version is not [version], or whose cipher is not ["aes-128-ctr"],
    is refused with the error naming the version (checked first) or the
    cipher, an UnsupportedFormatError; the passphrase and the rest of the
    blob are not looked at. *)
Theorem decryptExtendedKey_unsupported_format
    (keyProtected : encryptedKeyJSONV3.t) (auth : string) :
  cryptoJSON.CipherText (encryptedKeyJSONV3.ExtendedKey keyProtected) ≠ "" →
  encryptedKeyJSONV3.Version keyProtected ≠ version ∨
  cryptoJSON.Cipher (encryptedKeyJSONV3.ExtendedKey keyProtected) ≠ "aes-128-ctr" →
  ∃ err,
    decryptExtendedKey keyProtected auth = Err err ∧
    UnsupportedFormatError err ∧
    err =
      (if decide (encryptedKeyJSONV3.Version keyProtected = version)
       then ErrCipherNotSupported
              (cryptoJSON.Cipher (encryptedKeyJSONV3.ExtendedKey keyProtected))
       else ErrVersionNotSupported (encryptedKeyJSONV3.Version keyProtected)).
Proof.
  intros Hct Hbad. unfold decryptExtendedKey.
  rewrite decide_False by (rewrite String_length_zero; exact Hct).
  destruct (decide (encryptedKeyJSONV3.Version keyProtected = version)) as [Hv|Hv].
  - rewrite decide_False by (intros Hn; exact (Hn Hv)).
    destruct Hbad as [Hn|Hc]; [done|].
    rewrite decide_True by exact Hc. eexists. repeat split.
  - rewrite decide_True by exact Hv. eexists. repeat split.
Qed.

(** C7, as the code has it. The shortcut of [EncryptExtendedKey] is taken
    for the nil key: the result is the empty blob, no error, whatever the
    passphrase, the cost parameters and the primitives. A non-nil key,
    the zero-valued sentinel included, never gives the empty blob. For
    every passphrase, a record whose extended-key blob has no ciphertext
    decrypts to the bytes of the sentinel string; neither the passphrase
    nor the MAC is looked at. *)
Theorem empty_key_shortcut :
  (∀ auth scryptN scryptP salt iv,
     EncryptExtendedKey None auth scryptN scryptP salt iv = Ok cryptoJSON_zero) ∧
  (∀ extKey auth scryptN scryptP salt iv,
     EncryptExtendedKey (Some extKey) auth scryptN scryptP salt iv
       ≠ Ok cryptoJSON_zero) ∧
  (∀ keyProtected auth,
     cryptoJSON.CipherText (encryptedKeyJSONV3.ExtendedKey keyProtected) = "" →
     decryptExtendedKey keyProtected auth
       = Ok (list_byte_of_string extkeys.EmptyExtendedKeyString)).
Proof.
  split; [|split].
  - reflexivity.
  - intros extKey auth scryptN scryptP salt iv Henc.
    apply EncryptExtendedKey_Some_inv in Henc
      as (derivedKey & encryptKey & macKey & cipherText & _ & _ & _ & _ & Heq).
    discriminate Heq.
  - intros keyProtected auth Hct. unfold decryptExtendedKey.
    rewrite decide_True by (rewrite Hct; reflexivity). reflexivity.
Qed.

End EngineProperties.

(** ** Properties of the deriver *)

Section DeriverProperties.
Context `{!crypto.API} `{!extkeys.API}.

(** C3. Master and non-master keys. For a key of depth 0,
    [newKeyFromExtendedKey] derives [BIP44Child] under [CoinTypeETH] at
    index 0 and at index 1: an error of either is returned next to
    [&Key{}]; otherwise the private key of the result is that of the first
    child, its extended key is the second child, and the two children
    differ. For a key of another depth nothing is derived: the private key
    is that of the key itself and the extended key is the key itself.
    Assumed of [BIP44Child]: a derived key records the index it was
    derived at. *)
Theorem newKeyFromExtendedKey_master_or_not
    (extKey : extkeys.ExtendedKey) (id : list byte) (h : heap) :
  BIP44Child_records_index →
  (extkeys.Depth extKey = 0 →
     match extkeys.BIP44Child extKey extkeys.CoinTypeETH 0,
           extkeys.BIP44Child extKey extkeys.CoinTypeETH 1 with
     | Ok extChild1, Ok extChild2 =>
         newKeyFromExtendedKey extKey id h =
           (({| Key.Id := id;
                Key.Address :=
                  crypto.PubkeyToAddress
                    (ecdsa.PublicKey (extkeys.ToECDSA extChild1));
                Key.PrivateKey := Some (fresh (dom h));
                Key.ExtendedKey := Some extChild2;
                Key.SubAccountIndex := 0 |}, None),
            <[fresh (dom h) := extkeys.ToECDSA extChild1]> h) ∧
         extChild1 ≠ extChild2
     | Err err, _ | Ok _, Err err =>
         newKeyFromExtendedKey extKey id h = ((Key_zero, Some err), h)
     end) ∧
  (extkeys.Depth extKey ≠ 0 →
     newKeyFromExtendedKey extKey id h =
       (({| Key.Id := id;
            Key.Address :=
              crypto.PubkeyToAddress (ecdsa.PublicKey (extkeys.ToECDSA extKey));
            Key.PrivateKey := Some (fresh (dom h));
            Key.ExtendedKey := Some extKey;
            Key.SubAccountIndex := 0 |}, None),
        <[fresh (dom h) := extkeys.ToECDSA extKey]> h)).
Proof.
  intros Hidx. unfold newKeyFromExtendedKey, alloc. split; intros Hd.
  - rewrite decide_True by exact Hd. unfold_bind.
    destruct (extkeys.BIP44Child extKey extkeys.CoinTypeETH 0)
      as [extChild1|err1] eqn:H1; [|reflexivity].
    destruct (extkeys.BIP44Child extKey extkeys.CoinTypeETH 1)
      as [extChild2|err2] eqn:H2; [|reflexivity].
    split; [reflexivity|].
    intros ->. apply Hidx in H1, H2. rewrite H1 in H2. discriminate H2.
  - rewrite decide_False by exact Hd. reflexivity.
Qed.

End DeriverProperties.

(** ** Properties of the decoding *)

Section SerializationProperties.
Context `{!scrypt.API} `{!crypto.API} `{!Upstream} `{!extkeys.API} `{!json.API}.

(** C6. Legacy records: for a record whose version is the string "1" and
    which, as the legacy shape has it, carries no sub-account index,
    [DecryptKey] succeeds as soon as the record decodes and [decryptKeyV1]
    returns the primary key; the key it returns has the zero-valued
    extended key (the empty sentinel) and sub-account index 0. Nothing of
    the version-3 path enters the result. Assumed of [NewKeyFromString]:
    the sentinel string parses to the zero-valued key. *)
Theorem DecryptKey_legacy (keyjson : list byte) (auth : string) (h : heap)
    (m : gmap string any) (k : encryptedKeyJSONV1.t) (keyBytes keyId : list byte) :
  NewKeyFromString_empty →
  json.UnmarshalMap keyjson = Ok m →
  m !! "version" = Some (AString "1") →
  m !! "subaccountindex" = None →
  json.UnmarshalV1 keyjson = Ok k →
  decryptKeyV1 k auth = Ok (keyBytes, keyId) →
  DecryptKey keyjson auth h =
    Ok ({| Key.Id := keyId;
           Key.Address :=
             crypto.PubkeyToAddress
               (ecdsa.PublicKey (crypto.ToECDSAUnsafe keyBytes));
           Key.PrivateKey := Some (fresh (dom h));
           Key.ExtendedKey := Some emptyExtendedKey;
           Key.SubAccountIndex := 0 |},
        <[fresh (dom h) := crypto.ToECDSAUnsafe keyBytes]> h).
Proof.
  intros Hempty Hm Hver Hidx Hk Hdec. unfold DecryptKey. unfold_bind.
  rewrite Hm, Hver, Hidx. simpl. rewrite Hk, Hdec, Hempty. reflexivity.
Qed.

(** C10. Every key [DecryptKey] returns has a non-nil extended key: for a
    version-"1" record it is the zero-valued key; for any other record it
    is what [NewKeyFromString] parses from the bytes [decryptExtendedKey]
    returns, which is the zero-valued key when the extended-key blob has
    no ciphertext. Assumed of [NewKeyFromString]: a nil error comes with a
    non-nil key, and the sentinel string parses to the zero-valued key. *)
Theorem DecryptKey_ExtendedKey_not_nil (keyjson : list byte) (auth : string)
    (h h' : heap) (key : Key.t) :
  NewKeyFromString_not_nil →
  NewKeyFromString_empty →
  DecryptKey keyjson auth h = Ok (key, h') →
  ∃ extKey m,
    Key.ExtendedKey key = Some extKey ∧
    json.UnmarshalMap keyjson = Ok m ∧
    (isVersion1 (m !! "version") = true → extKey = emptyExtendedKey) ∧
    (isVersion1 (m !! "version") = false →
       ∃ k extKeyBytes,
         json.UnmarshalV3 keyjson = Ok k ∧
         decryptExtendedKey k auth = Ok extKeyBytes ∧
         extkeys.NewKeyFromString (string_of_list_byte extKeyBytes)
           = Ok (Some extKey) ∧
         (cryptoJSON.CipherText (encryptedKeyJSONV3.ExtendedKey k) = "" →
            extKey = emptyExtendedKey)).
Proof.
  intros Hnn Hempty Hdec. unfold DecryptKey in Hdec. unfold_bind.
  destruct (json.UnmarshalMap keyjson) as [m|] eqn:Hm; [|discriminate].
  destruct (isVersion1 (m !! "version")) eqn:Hver.
  - destruct (json.UnmarshalV1 keyjson) as [k|]; [|discriminate].
    destruct (decryptKeyV1 k auth) as [[keyBytes keyId]|]; [|discriminate].
    rewrite Hempty in Hdec. simpl in Hdec. injection Hdec as <- <-.
    exists emptyExtendedKey, m. split; [reflexivity|]. split; [reflexivity|].
    split; [reflexivity|]. rewrite Hver. discriminate.
  - destruct (json.UnmarshalV3 keyjson) as [k|] eqn:Hk; [|discriminate].
    destruct (decryptKeyV3 k auth) as [[keyBytes keyId]|]; [|discriminate].
    destruct (decryptExtendedKey k auth) as [extKeyBytes|] eqn:Hext; [|discriminate].
    destruct (extkeys.NewKeyFromString (string_of_list_byte extKeyBytes))
      as [[extKey|]|] eqn:Hnew; [|by apply Hnn in Hnew|discriminate].
    simpl in Hdec. injection Hdec as <- <-.
    exists extKey, m. split; [reflexivity|]. split; [reflexivity|].
    split; [rewrite Hver; discriminate|].
    intros _. exists k, extKeyBytes. split; [done|]. split; [done|].
    split; [done|].
    intros Hct. unfold decryptExtendedKey in Hext.
    rewrite decide_True in Hext by (rewrite Hct; reflexivity).
    injection Hext as <-. rewrite string_of_list_byte_of_string in Hnew.
    rewrite Hempty in Hnew. by injection Hnew as <-.
Qed.

End SerializationProperties.

(** ** Properties of the vault operations *)

Section VaultProperties.
Context {C S : Type} `{!keyStore S} `{!accountCache C S}.
Context `{!crypto.API} `{!Upstream} `{!extkeys.API}.


(** A key derived without error: its secret is a new object of the memory,
    and its address depends on the extended key only. *)
Lemma newKeyFromExtendedKey_Ok (extKey : extkeys.ExtendedKey) (id : list byte)
    (h h0 : heap) (key : Key.t) :
  newKeyFromExtendedKey extKey id h = ((key, None), h0) →
  ∃ extChild1,
    Key.PrivateKey key = Some (fresh (dom h)) ∧
    h0 = <[fresh (dom h) := extkeys.ToECDSA extChild1]> h ∧
    ∀ id' h', ∃ key',
      newKeyFromExtendedKey extKey id' h'
        = ((key', None), <[fresh (dom h') := extkeys.ToECDSA extChild1]> h') ∧
      Key.Address key' = Key.Address key.
Proof.
  unfold newKeyFromExtendedKey, alloc.
  destruct (if decide (extkeys.Depth extKey = 0) then _ else _)
    as [[extChild1 extChild2]|err]; [|discriminate].
  intros [= <- <-]. exists extChild1. split; [reflexivity|]. split; [reflexivity|].
  intros id' h'. eexists. split; reflexivity.
Qed.

(** When the cache tracks the derived address, the tracked account is
    returned and nothing is stored. *)
Lemma ImportExtendedKey_tracked (ks : KeyStore C S) (h h0 : heap)
    (extKey : extkeys.ExtendedKey) (passphrase : string) (id : list byte) (now : Z)
    (key : Key.t) (a : accounts.Account) :
  newKeyFromExtendedKey extKey id h = ((key, None), h0) →
  tracked ks (Key.Address key) a →
  ∃ ks', ImportExtendedKey ks h extKey passphrase id now = ((a, None), ks', h0) ∧
         storage ks' = storage ks.
Proof.
  intros Hnew (c & Hhas & Hfind). unfold ImportExtendedKey.
  rewrite Hnew, Hhas, Hfind. eexists. split; reflexivity.
Qed.

(** C5. Idempotent import. Let the derivation of the key succeed. (1) If
    the cache does not track the derived address and the store succeeds,
    the import stores the key once and returns the new account; if the
    cache then tracks the address as that account, a second call with the
    same extended key and passphrase returns the same account, without an
    error, and leaves the storage as the first call left it. (2) Whenever
    the cache tracks the derived address, the tracked account is returned
    without an error and nothing is stored. (3) If the cache reports the
    address and the lookup then fails, the error of the lookup is returned
    and every word of the derived secret is zero. *)
Theorem ImportExtendedKey_idempotent (ks : KeyStore C S) (h h0 : heap)
    (extKey : extkeys.ExtendedKey) (passphrase : string) (id : list byte) (now : Z)
    (key : Key.t) :
  newKeyFromExtendedKey extKey id h = ((key, None), h0) →
  (∀ c0 s1,
     let a :=
       {| accounts.Address := Key.Address key;
          accounts.URL :=
            {| accounts.URL.Scheme := KeyStoreScheme;
               accounts.URL.Path :=
                 JoinPath (storage ks) (keyFileName now (Key.Address key)) |} |} in
     let ks1 := {| storage := s1; cache := add c0 a |} in
     hasAddress (cache ks) (storage ks) (Key.Address key) = (false, c0) →
     StoreKey (storage ks) h0 (accounts.URL.Path (accounts.URL a)) key passphrase
       = (s1, None) →
     tracked ks1 (Key.Address key) a →
     ImportExtendedKey ks h extKey passphrase id now = ((a, None), ks1, h0) ∧
     ∀ id' now', ∃ ks2 h2,
       ImportExtendedKey ks1 h0 extKey passphrase id' now' = ((a, None), ks2, h2) ∧
       storage ks2 = s1) ∧
  (∀ a, tracked ks (Key.Address key) a →
     ∃ ks', ImportExtendedKey ks h extKey passphrase id now = ((a, None), ks', h0) ∧
            storage ks' = storage ks) ∧
  (∀ c a err,
     hasAddress (cache ks) (storage ks) (Key.Address key) = (true, c) →
     find (maybeReload c (storage ks))
       {| accounts.Address := Key.Address key;
          accounts.URL := accounts.URL Account_zero |} = (a, Some err) →
     ImportExtendedKey ks h extKey passphrase id now =
       ((a, Some err),
        {| storage := storage ks; cache := maybeReload c (storage ks) |},
        zeroKey (Key.PrivateKey key) h0) ∧
     ∃ l secret,
       Key.PrivateKey key = Some l ∧
       zeroKey (Key.PrivateKey key) h0 !! l = Some secret ∧
       Forall (λ w, w = 0) (ecdsa.D secret)).
Proof.
  intros Hnew. split; [|split].
  - intros c0 s1 a ks1 Hhas Hstore Htracked. split.
    + unfold ImportExtendedKey. rewrite Hnew, Hhas. unfold importKey. simpl.
      simpl in Hstore. rewrite Hstore. reflexivity.
    + intros id' now'.
      destruct (newKeyFromExtendedKey_Ok _ _ _ _ _ Hnew) as (child & _ & _ & Hagain).
      destruct (Hagain id' h0) as (key' & Hnew' & Haddr).
      rewrite <- Haddr in Htracked.
      destruct (ImportExtendedKey_tracked ks1 h0 _ extKey passphrase id' now' key' a
                  Hnew' Htracked) as (ks2 & Himp & Hst).
      exists ks2. eexists. split; [exact Himp|exact Hst].
  - intros a. apply ImportExtendedKey_tracked. exact Hnew.
  - intros c a err Hhas Hfind. split.
    + unfold ImportExtendedKey. rewrite Hnew, Hhas, Hfind. reflexivity.
    + destruct (newKeyFromExtendedKey_Ok _ _ _ _ _ Hnew) as (child & Hpk & -> & _).
      rewrite Hpk. simpl. eexists _, _. split; [reflexivity|].
      rewrite lookup_alter_eq, lookup_insert_eq. simpl. split; [reflexivity|].
      apply Forall_forall. intros w Hw. apply list_elem_of_In, in_map_iff in Hw.
      destruct Hw as (? & <- & _). reflexivity.
Qed.




(** [zeroKey] on a nil pointer returns without touching the memory. *)
Lemma zeroKey_nil (h : heap) : zeroKey None h = h.
Proof. reflexivity. Qed.

(** The vault operations on their successful paths never call [zeroKey]:
    the memory they leave is the memory as it was when the secret was
    materialised. After an import that stores the key, the object of the
    derived private key is still in memory; after [IncSubAccountIndex],
    the memory is what the decryption left, with or without an error of
    the store. *)
Lemma success_paths_leave_the_secret (ks : KeyStore C S) (h h0 : heap)
    (extKey : extkeys.ExtendedKey) (passphrase : string) (id : list byte) (now : Z)
    (key : Key.t) :
  (∀ c0,
     newKeyFromExtendedKey extKey id h = ((key, None), h0) →
     hasAddress (cache ks) (storage ks) (Key.Address key) = (false, c0) →
     (ImportExtendedKey ks h extKey passphrase id now).2 = h0 ∧
     ∃ l extChild1, Key.PrivateKey key = Some l ∧
                    h0 !! l = Some (extkeys.ToECDSA extChild1)) ∧
  (∀ a a' ks1 h1 key1,
     getDecryptedKey ks h a passphrase = (Ok (a', key1), ks1, h1) →
     (IncSubAccountIndex ks h a passphrase).2 = h1).
Proof.
  split.
  - intros c0 Hnew Hhas. split.
    + unfold ImportExtendedKey. rewrite Hnew, Hhas. unfold importKey.
      destruct (StoreKey _ _ _ _ _) as [s [err|]]; reflexivity.
    + destruct (newKeyFromExtendedKey_Ok _ _ _ _ _ Hnew) as (child & Hpk & -> & _).
      exists (fresh (dom h)), child. split; [exact Hpk|apply lookup_insert_eq].
  - intros a a' ks1 h1 key1 Hget. unfold IncSubAccountIndex. rewrite Hget.
    destruct (StoreKey _ _ _ _ _) as [s err]. reflexivity.
Qed.

End VaultProperties.

(** ** The instance meets what the theorems assume *)

Section SampleLaws.
#[local] Existing Instances Sample.scrypt_api Sample.crypto_api Sample.upstream
  Sample.extkeys_api Sample.json_api Sample.keyStore_api Sample.accountCache_api.

Lemma byte_xor_involutive (a k : byte) : Sample.byte_xor (Sample.byte_xor a k) k = a.
Proof.
  unfold Sample.byte_xor.
  rewrite <- (Byte.of_bits_to_bits a) at 2.
  destruct (Byte.to_bits a) as (a0 & a1 & a2 & a3 & a4 & a5 & a6 & a7).
  destruct (Byte.to_bits k) as (k0 & k1 & k2 & k3 & k4 & k5 & k6 & k7).
  rewrite Byte.to_bits_of_bits.
  rewrite !xorb_assoc, !xorb_nilpotent, !xorb_false_r. reflexivity.
Qed.

Lemma xor_stream_length (key iv : list byte) (i : nat) (text : list byte) :
  length (Sample.xor_stream key iv i text) = length text.
Proof.
  revert i. induction text as [|b text IH]; intros i; simpl; [reflexivity|].
  by rewrite IH.
Qed.

Lemma xor_stream_involutive (key iv : list byte) (i : nat) (text : list byte) :
  Sample.xor_stream key iv i (Sample.xor_stream key iv i text) = text.
Proof.
  revert i. induction text as [|b text IH]; intros i; simpl; [reflexivity|].
  by rewrite byte_xor_involutive, IH.
Qed.

Lemma ctrXOR_Ok (key inText iv outText : list byte) :
  Sample.ctrXOR key inText iv = Ok outText →
  outText = Sample.xor_stream key iv 0 inText ∧
  ∀ text, Sample.ctrXOR key text iv = Ok (Sample.xor_stream key iv 0 text).
Proof.
  unfold Sample.ctrXOR.
  destruct (negb (bool_decide _)); [discriminate|].
  destruct (negb (_ =? _)%nat); [discriminate|].
  intros [= <-]. split; reflexivity.
Qed.

Lemma sample_aesCTRXOR_length : aesCTRXOR_length.
Proof.
  intros key inText iv outText Hok. apply ctrXOR_Ok in Hok as [-> _].
  apply xor_stream_length.
Qed.

Lemma sample_aesCTRXOR_involutive : aesCTRXOR_involutive.
Proof.
  intros key inText iv outText Hok. apply ctrXOR_Ok in Hok as [-> Hall].
  simpl. rewrite Hall, xor_stream_involutive. reflexivity.
Qed.

Lemma sample_scrypt_Key_length : scrypt_Key_length.
Proof.
  intros password salt N r p keyLen dk. simpl. unfold Sample.scrypt_Key.
  destruct (_ || _)%bool; [discriminate|].
  destruct (_ || _)%bool; [discriminate|].
  intros [= <-]. by rewrite length_map, length_seq.
Qed.


Lemma sample_BIP44Child_records_index : BIP44Child_records_index.
Proof.
  intros k coinType i child. simpl. unfold Sample.BIP44Child.
  destruct (_ || _)%bool; [discriminate|].
  intros [= <-]. reflexivity.
Qed.

Lemma sample_NewKeyFromString_empty : NewKeyFromString_empty.
Proof. reflexivity. Qed.

Lemma sample_NewKeyFromString_not_nil : NewKeyFromString_not_nil.
Proof.
  intros s r. simpl. unfold Sample.NewKeyFromString.
  destruct (_ || _)%bool; [by intros [= <-]|].
  destruct (String.prefix _ _); [|discriminate].
  unfold_bind. destruct (hex.DecodeString _); [|discriminate].
  by intros [= <-].
Qed.


End SampleLaws.

(** ** Concrete runs *)

Section SampleRuns.
#[local] Existing Instances Sample.scrypt_api Sample.crypto_api Sample.upstream
  Sample.extkeys_api Sample.json_api Sample.keyStore_api Sample.accountCache_api.

(** The round trip of C1 on a concrete key and passphrase. *)
Lemma decryptExtendedKey_EncryptExtendedKey_witness :
  decryptExtendedKey
    (Sample.record (Sample.encrypted (Some Sample.masterKey) "correct-password") 3)
    "correct-password"
  = Ok (list_byte_of_string "xprv01020304").
Proof.
  refine (decryptExtendedKey_EncryptExtendedKey Sample.masterKey "correct-password"
            2 1 Sample.salt Sample.iv
            (Sample.encrypted (Some Sample.masterKey) "correct-password")
            (Sample.record
               (Sample.encrypted (Some Sample.masterKey) "correct-password") 3)
            _ _ _ _ _ _).
  - exact sample_aesCTRXOR_length.
  - exact sample_aesCTRXOR_involutive.
  - vm_compute. discriminate.
  - vm_compute. reflexivity.
  - reflexivity.
  - reflexivity.
Defined.


(** The refusal of C9 on a record of version 2. *)
Lemma decryptExtendedKey_unsupported_format_witness :
  decryptExtendedKey
    (Sample.record (Sample.encrypted (Some Sample.masterKey) "correct-password") 2)
    "correct-password"
  = Err (ErrVersionNotSupported 2).
Proof.
  destruct (decryptExtendedKey_unsupported_format
              (Sample.record
                 (Sample.encrypted (Some Sample.masterKey) "correct-password") 2)
              "correct-password") as (err & Herr & _ & Hwhich).
  - vm_compute. discriminate.
  - left. vm_compute. discriminate.
  - rewrite Herr, Hwhich. reflexivity.
Defined.

(** C7 on the record with an empty extended-key blob. *)
Lemma empty_key_shortcut_witness :
  decryptExtendedKey Sample.currentRecord "any passphrase"
  = Ok (list_byte_of_string "Zeroed extended key").
Proof.
  exact (proj2 (proj2 empty_key_shortcut) Sample.currentRecord "any passphrase"
           eq_refl).
Defined.

(** The zero-valued key, whose string is the sentinel string, is not nil:
    [EncryptExtendedKey] encrypts it like any key, and the blob it returns
    is not the empty one. *)
Lemma EncryptExtendedKey_sentinel_not_shortcut :
  extkeys.String emptyExtendedKey = extkeys.EmptyExtendedKeyString ∧
  EncryptExtendedKey (Some emptyExtendedKey) "correct-password" 2 1
    Sample.salt Sample.iv
  = Ok (Sample.encrypted (Some emptyExtendedKey) "correct-password") ∧
  cryptoJSON.Cipher (Sample.encrypted (Some emptyExtendedKey) "correct-password")
  = "aes-128-ctr" ∧
  cryptoJSON.CipherText (Sample.encrypted (Some emptyExtendedKey) "correct-password")
  = "37040e130e095a46061b18131d04184a060405".
Proof. repeat split; vm_compute; reflexivity. Qed.

(** C3 on a master key. *)
Lemma newKeyFromExtendedKey_master_or_not_witness :
  ∃ extChild1 extChild2,
    extkeys.BIP44Child Sample.masterKey extkeys.CoinTypeETH 0 = Ok extChild1 ∧
    extkeys.BIP44Child Sample.masterKey extkeys.CoinTypeETH 1 = Ok extChild2 ∧
    extChild1 ≠ extChild2 ∧
    Key.ExtendedKey Sample.derivedKey = Some extChild2.
Proof.
  destruct (newKeyFromExtendedKey_master_or_not Sample.masterKey [x2a] ∅
              sample_BIP44Child_records_index) as [Hmaster _].
  specialize (Hmaster eq_refl).
  destruct (extkeys.BIP44Child Sample.masterKey extkeys.CoinTypeETH 0)
    as [extChild1|] eqn:H1; [|vm_compute in H1; discriminate].
  destruct (extkeys.BIP44Child Sample.masterKey extkeys.CoinTypeETH 1)
    as [extChild2|] eqn:H2; [|vm_compute in H2; discriminate].
  destruct Hmaster as [Hkey Hne].
  exists extChild1, extChild2. split; [reflexivity|]. split; [reflexivity|].
  split; [exact Hne|].
  unfold Sample.derivedKey. rewrite Hkey. reflexivity.
Defined.

(** C6 on the legacy document. *)
Lemma DecryptKey_legacy_witness :
  ∃ key h,
    DecryptKey Sample.legacyDocument "correct-password" ∅ = Ok (key, h) ∧
    Key.ExtendedKey key = Some emptyExtendedKey ∧
    Key.SubAccountIndex key = 0.
Proof.
  eexists _, _. split.
  - apply (DecryptKey_legacy Sample.legacyDocument "correct-password" ∅
             (<["version" := AString "1"]> ∅) Sample.legacyRecord
             [x11; x22; x33] (list_byte_of_string "id-1")).
    + exact sample_NewKeyFromString_empty.
    + reflexivity.
    + reflexivity.
    + reflexivity.
    + reflexivity.
    + vm_compute. reflexivity.
  - split; reflexivity.
Defined.

(** C10 on the version-3 document. *)
Lemma DecryptKey_ExtendedKey_not_nil_witness :
  ∃ key h extKey,
    DecryptKey Sample.currentDocument "correct-password" ∅ = Ok (key, h) ∧
    Key.ExtendedKey key = Some extKey.
Proof.
  destruct (DecryptKey Sample.currentDocument "correct-password" ∅)
    as [[key h]|] eqn:Hdec; [|vm_compute in Hdec; discriminate].
  destruct (DecryptKey_ExtendedKey_not_nil _ _ _ _ _
              sample_NewKeyFromString_not_nil sample_NewKeyFromString_empty Hdec)
    as (extKey & m & Hext & _).
  exists key, h, extKey. split; [reflexivity|exact Hext].
Defined.

(** C5 on the empty key store: the import, then the same import again. *)
Lemma ImportExtendedKey_idempotent_witness :
  ImportExtendedKey Sample.emptyKeyStore ∅ Sample.masterKey "correct-password"
    [x2a] 0
  = ((Sample.importedAccount, None), Sample.importedKeyStore, Sample.derivedHeap) ∧
  ∃ ks2 h2,
    ImportExtendedKey Sample.importedKeyStore Sample.derivedHeap Sample.masterKey
      "correct-password" [x2b] 5
    = ((Sample.importedAccount, None), ks2, h2) ∧
    storage ks2 = storage Sample.importedKeyStore.
Proof.
  destruct (ImportExtendedKey_idempotent Sample.emptyKeyStore ∅ Sample.derivedHeap
              Sample.masterKey "correct-password" [x2a] 0 Sample.derivedKey)
    as [Hfirst _].
  - vm_compute. reflexivity.
  - destruct (Hfirst [] (storage Sample.importedKeyStore)) as [Hone Htwo].
    + vm_compute. reflexivity.
    + vm_compute. reflexivity.
    + exists [Sample.importedAccount]. split; vm_compute; reflexivity.
    + split; [vm_compute; reflexivity|]. exact (Htwo [x2b] 5).
Defined.



(** C8 at its failing inputs. After the import of [masterKey] into the
    empty key store has returned without an error, the words of the
    derived secret are still in memory; so are the words of the decrypted
    secret after a successful [IncSubAccountIndex]. *)
Lemma secret_not_zeroed_on_success :
  (ImportExtendedKey Sample.emptyKeyStore ∅ Sample.masterKey "correct-password"
     [x2a] 0).1.1.2 = None ∧
  Key.PrivateKey Sample.derivedKey = Some 0%nat ∧
  ecdsa.D <$>
    (ImportExtendedKey Sample.emptyKeyStore ∅ Sample.masterKey "correct-password"
       [x2a] 0).2 !! 0%nat = Some [60; 63; 62; 57] ∧
  (Sample.afterIncrement 7).1.1 = None ∧
  ecdsa.D <$> (Sample.afterIncrement 7).2 !! 0%nat = Some [17; 34; 51].
Proof. repeat split; vm_compute; reflexivity. Qed.

End SampleRuns.

(** * Further properties of the code *)

(** ** More properties of the engine *)

Lemma hex_DecodeString_Err (s : string) (e : error) :
  hex.DecodeString s = Err e → e = ErrLength ∨ ∃ c, e = ErrInvalidByte c.
Proof.
  revert e.
  assert (Hboth : ∀ e,
            (hex.DecodeString s = Err e → e = ErrLength ∨ ∃ c, e = ErrInvalidByte c) ∧
            (∀ p, hex.DecodeString (String p s) = Err e →
                  e = ErrLength ∨ ∃ c, e = ErrInvalidByte c)).
  { induction s as [|q s IH]; intros e.
    - split; [discriminate|].
      intros p. simpl. destruct (hex.fromHexChar p); intros [= <-]; eauto.
    - destruct (IH e) as [IH1 IH2]. split; [apply IH2|].
      intros p. simpl.
      destruct (hex.fromHexChar p); [|intros [= <-]; eauto].
      destruct (hex.fromHexChar q); [|intros [= <-]; eauto].
      destruct (hex.DecodeString s) eqn:Hs; [discriminate|].
      intros [= <-]. by apply IH1. }
  intros e. apply Hboth.
Qed.

Section MoreEngineProperties.
Context `{!scrypt.API} `{!crypto.API} `{!Upstream} `{!extkeys.API}.


(** X2. Past the format checks, a record whose stored MAC, IV or
    ciphertext (looked at in this order) is not hexadecimal is refused
    with the error of the decoding, which is never [ErrDecrypt]; the
    passphrase plays no part. *)
Theorem decryptExtendedKey_malformed_hex (keyProtected : encryptedKeyJSONV3.t)
    (auth : string) (err : error) :
  cryptoJSON.CipherText (encryptedKeyJSONV3.ExtendedKey keyProtected) ≠ "" →
  encryptedKeyJSONV3.Version keyProtected = version →
  cryptoJSON.Cipher (encryptedKeyJSONV3.ExtendedKey keyProtected) = "aes-128-ctr" →
  hex.DecodeString (cryptoJSON.MAC (encryptedKeyJSONV3.ExtendedKey keyProtected))
    = Err err ∨
  (∃ mac,
     hex.DecodeString (cryptoJSON.MAC (encryptedKeyJSONV3.ExtendedKey keyProtected))
       = Ok mac ∧
     hex.DecodeString
       (cipherparamsJSON.IV
          (cryptoJSON.CipherParams (encryptedKeyJSONV3.ExtendedKey keyProtected)))
       = Err err) ∨
  (∃ mac iv,
     hex.DecodeString (cryptoJSON.MAC (encryptedKeyJSONV3.ExtendedKey keyProtected))
       = Ok mac ∧
     hex.DecodeString
       (cipherparamsJSON.IV
          (cryptoJSON.CipherParams (encryptedKeyJSONV3.ExtendedKey keyProtected)))
       = Ok iv ∧
     hex.DecodeString
       (cryptoJSON.CipherText (encryptedKeyJSONV3.ExtendedKey keyProtected))
       = Err err) →
  decryptExtendedKey keyProtected auth = Err err ∧ err ≠ ErrDecrypt.
Proof.
  intros Hct Hv Hc Hbad.
  assert (Hhex : err ≠ ErrDecrypt).
  { destruct Hbad as [Hm|[(mac & _ & Hi)|(mac & iv & _ & _ & Ht)]];
      [apply hex_DecodeString_Err in Hm as [->|[c ->]]
      |apply hex_DecodeString_Err in Hi as [->|[c ->]]
      |apply hex_DecodeString_Err in Ht as [->|[c ->]]]; discriminate. }
  split; [|exact Hhex].
  unfold decryptExtendedKey.
  rewrite decide_False by (rewrite String_length_zero; exact Hct).
  rewrite decide_False by (intros Hn; exact (Hn Hv)).
  rewrite decide_False by (intros Hn; exact (Hn Hc)).
  unfold_bind.
  destruct Hbad as [Hm|[(mac & Hm & Hi)|(mac & iv & Hm & Hi & Ht)]].
  - by rewrite Hm.
  - by rewrite Hm, Hi.
  - by rewrite Hm, Hi, Ht.
Qed.

Lemma hex_EncodeToString_inj (a b : list byte) :
  hex.EncodeToString a = hex.EncodeToString b → a = b.
Proof.
  intros Heq.
  pose proof (hex_DecodeString_EncodeToString a) as Ha.
  rewrite Heq, hex_DecodeString_EncodeToString in Ha. by injection Ha.
Qed.

(** X3. A blob tells the salt, the IV and the cost parameters it was made
    with: two calls of [EncryptExtendedKey] that return the same blob drew
    the same salt and the same IV and had the same N and p. *)
Theorem EncryptExtendedKey_records_entropy
    (extKey1 extKey2 : extkeys.ExtendedKey) (auth1 auth2 : string)
    (scryptN1 scryptN2 scryptP1 scryptP2 : Z) (salt1 salt2 iv1 iv2 : list byte)
    (blob : cryptoJSON.t) :
  EncryptExtendedKey (Some extKey1) auth1 scryptN1 scryptP1 salt1 iv1 = Ok blob →
  EncryptExtendedKey (Some extKey2) auth2 scryptN2 scryptP2 salt2 iv2 = Ok blob →
  salt1 = salt2 ∧ iv1 = iv2 ∧ scryptN1 = scryptN2 ∧ scryptP1 = scryptP2.
Proof.
  intros Hone Htwo.
  apply EncryptExtendedKey_Some_inv in Hone
    as (dk1 & ek1 & mk1 & ct1 & _ & _ & _ & _ & ->).
  apply EncryptExtendedKey_Some_inv in Htwo
    as (dk2 & ek2 & mk2 & ct2 & _ & _ & _ & _ & Heq).
  pose proof (f_equal cryptoJSON.KDFParams Heq) as Hparams.
  pose proof (f_equal (λ b, cipherparamsJSON.IV (cryptoJSON.CipherParams b)) Heq)
    as Hiv.
  cbn [cryptoJSON.KDFParams cryptoJSON.CipherParams cipherparamsJSON.IV]
    in Hparams, Hiv.
  split; [|split; [|split]].
  - apply (f_equal (λ m : gmap string any, m !! "salt")) in Hparams.
    rewrite !lookup_insert_eq in Hparams. injection Hparams as Hs.
    by apply hex_EncodeToString_inj.
  - by apply hex_EncodeToString_inj.
  - apply (f_equal (λ m : gmap string any, m !! "n")) in Hparams.
    repeat (rewrite lookup_insert_ne in Hparams by done).
    rewrite !lookup_insert_eq in Hparams. by injection Hparams.
  - apply (f_equal (λ m : gmap string any, m !! "p")) in Hparams.
    repeat (rewrite lookup_insert_ne in Hparams by done).
    rewrite !lookup_insert_eq in Hparams. by injection Hparams.
Qed.

(** X4. [EncryptExtendedKey] on a non-nil key fails only where a primitive
    fails: with the error of [scrypt.Key], or else with the error of
    [aesCTRXOR] under the first 16 bytes of the derived key; otherwise it
    returns a blob. No slice of the derived key is out of range. Assumed
    of [scrypt.Key]: it returns [keyLen] bytes. *)
Theorem EncryptExtendedKey_fails_in_primitives (extKey : extkeys.ExtendedKey)
    (auth : string) (scryptN scryptP : Z) (salt iv : list byte) :
  scrypt_Key_length →
  match scrypt.Key (list_byte_of_string auth) salt scryptN scryptR scryptP
          scryptDKLen with
  | Err err =>
      EncryptExtendedKey (Some extKey) auth scryptN scryptP salt iv = Err err
  | Ok derivedKey =>
      match aesCTRXOR (take 16 derivedKey)
              (list_byte_of_string (extkeys.String extKey)) iv with
      | Err err =>
          EncryptExtendedKey (Some extKey) auth scryptN scryptP salt iv = Err err
      | Ok cipherText =>
          ∃ blob,
            EncryptExtendedKey (Some extKey) auth scryptN scryptP salt iv = Ok blob ∧
            hex.DecodeString (cryptoJSON.CipherText blob) = Ok cipherText
      end
  end.
Proof.
  intros Hlen. unfold EncryptExtendedKey. unfold_bind.
  destruct (scrypt.Key _ _ _ _ _ _) as [derivedKey|err] eqn:Hdk; [|reflexivity].
  apply Hlen in Hdk. unfold scryptDKLen in Hdk.
  rewrite !slice_Ok by (rewrite Hdk; lia).
  change (take (16 - 0) (drop 0 derivedKey)) with (take 16 derivedKey).
  destruct (aesCTRXOR _ _ _) as [cipherText|err]; [|reflexivity].
  eexists. split; [reflexivity|]. simpl. apply hex_DecodeString_EncodeToString.
Qed.

End MoreEngineProperties.

(** ** More properties of the decoding and the writing *)

Section MoreSerializationProperties.
Context `{!scrypt.API} `{!crypto.API} `{!Upstream} `{!extkeys.API} `{!json.API}.

(** What a successful [DecryptKey] went through. *)
Lemma DecryptKey_Ok_inv (keyjson : list byte) (auth : string) (h h' : heap)
    (key : Key.t) :
  DecryptKey keyjson auth h = Ok (key, h') →
  ∃ m keyBytes keyId extKey,
    json.UnmarshalMap keyjson = Ok m ∧
    h' = <[fresh (dom h) := crypto.ToECDSAUnsafe keyBytes]> h ∧
    key =
      {| Key.Id := keyId;
         Key.Address :=
           crypto.PubkeyToAddress (ecdsa.PublicKey (crypto.ToECDSAUnsafe keyBytes));
         Key.PrivateKey := Some (fresh (dom h));
         Key.ExtendedKey := extKey;
         Key.SubAccountIndex :=
           uint32_of_float64
             match m !! "subaccountindex" with
             | Some (AFloat64 f) => f
             | _ => 0%Q
             end |}.
Proof.
  unfold DecryptKey. unfold_bind.
  destruct (json.UnmarshalMap keyjson) as [m|]; [|discriminate].
  destruct (if isVersion1 (m !! "version") then _ else _)
    as [[[keyBytes keyId] extKey]|]; [|discriminate].
  unfold alloc. intros [= <- <-]. by exists m, keyBytes, keyId, extKey.
Qed.




(** X6. A key [DecryptKey] returns points to one new object of the memory,
    made from the decrypted key bytes; its address is the address of that
    object's public key; every object the memory held before is
    untouched. *)
Theorem DecryptKey_addressed (keyjson : list byte) (auth : string) (h h' : heap)
    (key : Key.t) :
  DecryptKey keyjson auth h = Ok (key, h') →
  addressed h' key ∧
  Key.PrivateKey key = Some (fresh (dom h)) ∧
  h !! fresh (dom h) = None ∧
  dom h' = {[fresh (dom h)]} ∪ dom h ∧
  (∀ l, is_Some (h !! l) → h' !! l = h !! l).
Proof.
  intros Hdec.
  apply DecryptKey_Ok_inv in Hdec as (m & keyBytes & keyId & extKey & _ & -> & ->).
  pose proof (is_fresh (dom h)) as Hfresh.
  split.
  { exists (fresh (dom h)), (crypto.ToECDSAUnsafe keyBytes). simpl.
    split; [reflexivity|]. split; [apply lookup_insert_eq|reflexivity]. }
  split; [reflexivity|].
  split; [by apply not_elem_of_dom|].
  split; [apply dom_insert_L|].
  intros l Hl. apply lookup_insert_ne. intros <-.
  apply Hfresh. by apply elem_of_dom.
Qed.

(** X7. No key without its extended key: for a record that is not of
    version "1" whose primary key decrypts, [DecryptKey] still fails when
    the non-empty extended-key blob is not accepted: with the cipher error
    when the blob names another cipher than "aes-128-ctr", and with
    [ErrDecrypt] when its stored MAC differs from the one recomputed under
    the passphrase. *)
Theorem DecryptKey_needs_extended_key (keyjson : list byte) (auth : string)
    (h : heap) (m : gmap string any) (k : encryptedKeyJSONV3.t)
    (keyBytes keyId : list byte) :
  json.UnmarshalMap keyjson = Ok m →
  isVersion1 (m !! "version") = false →
  json.UnmarshalV3 keyjson = Ok k →
  decryptKeyV3 k auth = Ok (keyBytes, keyId) →
  cryptoJSON.CipherText (encryptedKeyJSONV3.ExtendedKey k) ≠ "" →
  encryptedKeyJSONV3.Version k = version →
  (cryptoJSON.Cipher (encryptedKeyJSONV3.ExtendedKey k) ≠ "aes-128-ctr" →
   DecryptKey keyjson auth h
     = Err (ErrCipherNotSupported
              (cryptoJSON.Cipher (encryptedKeyJSONV3.ExtendedKey k)))) ∧
  (∀ mac iv recomputed,
     cryptoJSON.Cipher (encryptedKeyJSONV3.ExtendedKey k) = "aes-128-ctr" →
     hex.DecodeString (cryptoJSON.MAC (encryptedKeyJSONV3.ExtendedKey k)) = Ok mac →
     hex.DecodeString
       (cipherparamsJSON.IV (cryptoJSON.CipherParams (encryptedKeyJSONV3.ExtendedKey k)))
       = Ok iv →
     calculatedMAC (encryptedKeyJSONV3.ExtendedKey k) auth = Ok recomputed →
     recomputed ≠ mac →
     DecryptKey keyjson auth h = Err ErrDecrypt).
Proof.
  intros Hm Hver Hk Hp Hct Hv.
  assert (Hvia : ∀ err, decryptExtendedKey k auth = Err err →
                        DecryptKey keyjson auth h = Err err).
  { intros err He. unfold DecryptKey. unfold_bind.
    by rewrite Hm, Hver, Hk, Hp, He. }
  split.
  - intros Hc. apply Hvia. unfold decryptExtendedKey.
    rewrite decide_False by (rewrite String_length_zero; exact Hct).
    rewrite decide_False by (intros Hn; exact (Hn Hv)).
    by rewrite decide_True.
  - intros mac iv recomputed Hc Hmac Hiv Hcalc Hne. apply Hvia.
    by apply (decryptExtendedKey_mac_mismatch k auth mac iv recomputed).
Qed.

Context `{!UpstreamEncrypt}.



End MoreSerializationProperties.

(** ** More properties of the deriver and the vault *)

Section MoreVaultProperties.
Context {C S : Type} `{!keyStore S} `{!accountCache C S}.
Context `{!crypto.API} `{!Upstream} `{!extkeys.API}.

Lemma zeroKey_lookup_ne (k : option nat) (h : heap) (l : nat) :
  k ≠ Some l → zeroKey k h !! l = h !! l.
Proof.
  destruct k as [l0|]; simpl; [|done]. intros Hne. apply lookup_alter_ne. congruence.
Qed.

Lemma dom_zeroKey (k : option nat) (h : heap) : dom (zeroKey k h) = dom h.
Proof. destruct k as [l0|]; simpl; [apply dom_alter_L|done]. Qed.

Lemma map_zero_twice (words : list Z) :
  map (λ _ : Z, 0) (map (λ _ : Z, 0) words) = map (λ _, 0) words.
Proof. induction words; simpl; congruence. Qed.

(** What [newKeyFromExtendedKey] returns, by its error. *)
Lemma newKeyFromExtendedKey_cases (extKey : extkeys.ExtendedKey) (id : list byte)
    (h h0 : heap) (key : Key.t) (err : option error) :
  newKeyFromExtendedKey extKey id h = ((key, err), h0) →
  match err with
  | None =>
      ∃ secret,
        h0 = <[fresh (dom h) := secret]> h ∧
        Key.PrivateKey key = Some (fresh (dom h)) ∧
        Key.Address key = crypto.PubkeyToAddress (ecdsa.PublicKey secret) ∧
        Key.Id key = id ∧ Key.SubAccountIndex key = 0
  | Some _ => key = Key_zero ∧ h0 = h
  end.
Proof.
  unfold newKeyFromExtendedKey, alloc.
  destruct (if decide (extkeys.Depth extKey = 0) then _ else _)
    as [[extChild1 extChild2]|e]; intros [= <- <- <-]; [|done].
  eexists. split; [reflexivity|]. simpl. by repeat split.
Qed.

Lemma fresh_heap_lookup (h : heap) : h !! fresh (dom h) = None.
Proof. apply not_elem_of_dom, is_fresh. Qed.

(** X9. [zeroKey] on a key object of the memory sets every word of its
    secret to 0, keeps the number of words and the public key, and touches
    no other object; on a nil pointer it changes nothing. Calling it twice
    is calling it once, and every key stays addressed by its public key. *)
Theorem zeroKey_effect (k : option nat) (h : heap) :
  (∀ l secret, k = Some l → h !! l = Some secret →
     ∃ zeroed, zeroKey k h !! l = Some zeroed ∧
               ecdsa.PublicKey zeroed = ecdsa.PublicKey secret ∧
               length (ecdsa.D zeroed) = length (ecdsa.D secret) ∧
               Forall (λ w, w = 0) (ecdsa.D zeroed)) ∧
  (∀ l, k ≠ Some l → zeroKey k h !! l = h !! l) ∧
  dom (zeroKey k h) = dom h ∧
  zeroKey k (zeroKey k h) = zeroKey k h ∧
  (∀ key, addressed h key → addressed (zeroKey k h) key).
Proof.
  split; [|split; [|split; [|split]]].
  - intros l secret -> Hl. simpl. eexists. rewrite lookup_alter_eq, Hl. simpl.
    split; [reflexivity|]. split; [reflexivity|].
    split; [apply length_map|].
    apply Forall_forall. intros w Hw. apply list_elem_of_In, in_map_iff in Hw.
    by destruct Hw as (? & <- & _).
  - apply zeroKey_lookup_ne.
  - apply dom_zeroKey.
  - destruct k as [l0|]; simpl; [|done].
    apply map_eq. intros l. destruct (decide (l0 = l)) as [<-|Hne].
    + rewrite !lookup_alter_eq. destruct (h !! l0) as [secret|]; simpl; [|done].
      by rewrite map_zero_twice.
    + by rewrite !lookup_alter_ne.
  - intros key (l & secret & Hpk & Hl & Haddr).
    destruct (decide (k = Some l)) as [->|Hne].
    + eexists l, _. split; [exact Hpk|]. simpl. rewrite lookup_alter_eq, Hl. simpl.
      split; [reflexivity|exact Haddr].
    + exists l, secret. split; [exact Hpk|]. rewrite zeroKey_lookup_ne by done.
      split; [exact Hl|exact Haddr].
Qed.

(** X10. [newKeyFromExtendedKey], for a key of any depth: without an error
    the key has the identifier drawn for it and sub-account index 0, its
    secret is one new object of the memory, its address is the address of
    that object's public key, and the objects the memory held are
    untouched; with an error the key is [&Key{}] and the memory is as it
    was. *)
Theorem newKeyFromExtendedKey_addressed (extKey : extkeys.ExtendedKey)
    (id : list byte) (h h0 : heap) (key : Key.t) (err : option error) :
  newKeyFromExtendedKey extKey id h = ((key, err), h0) →
  match err with
  | None =>
      addressed h0 key ∧
      Key.Id key = id ∧
      Key.SubAccountIndex key = 0 ∧
      Key.PrivateKey key = Some (fresh (dom h)) ∧
      h !! fresh (dom h) = None ∧
      dom h0 = {[fresh (dom h)]} ∪ dom h ∧
      (∀ l, is_Some (h !! l) → h0 !! l = h !! l)
  | Some _ => key = Key_zero ∧ h0 = h
  end.
Proof.
  intros Hnew. apply newKeyFromExtendedKey_cases in Hnew.
  destruct err as [e|]; [exact Hnew|].
  destruct Hnew as (secret & -> & Hpk & Haddr & Hid & Hidx).
  pose proof (fresh_heap_lookup h) as Hnone.
  split.
  { exists (fresh (dom h)), secret. split; [exact Hpk|].
    split; [apply lookup_insert_eq|exact Haddr]. }
  split; [exact Hid|]. split; [exact Hidx|]. split; [exact Hpk|].
  split; [exact Hnone|].
  split; [apply dom_insert_L|].
  intros l Hl. apply lookup_insert_ne. intros <-. rewrite Hnone in Hl. by destruct Hl.
Qed.

(** X11. When the derivation from a master key fails, at the first or at
    the second child, [ImportExtendedKey] returns the error next to
    [accounts.Account{}]; the cache and the storage are not consulted and
    the key store and the memory are as before. *)
Theorem ImportExtendedKey_derivation_error (ks : KeyStore C S) (h : heap)
    (extKey : extkeys.ExtendedKey) (passphrase : string) (id : list byte) (now : Z)
    (err : error) :
  extkeys.Depth extKey = 0 →
  extkeys.BIP44Child extKey extkeys.CoinTypeETH 0 = Err err ∨
  (∃ extChild1, extkeys.BIP44Child extKey extkeys.CoinTypeETH 0 = Ok extChild1 ∧
                extkeys.BIP44Child extKey extkeys.CoinTypeETH 1 = Err err) →
  ImportExtendedKey ks h extKey passphrase id now = ((Account_zero, Some err), ks, h).
Proof.
  intros Hd Hbad. unfold ImportExtendedKey, newKeyFromExtendedKey.
  rewrite decide_True by exact Hd. unfold_bind.
  destruct Hbad as [Hzero|(extChild1 & Hzero & Hone)].
  - by rewrite Hzero.
  - by rewrite Hzero, Hone.
Qed.

(** X12. Whatever path [ImportExtendedKey] takes, and whatever the cache
    and the storage do, the objects the memory held are left as they were
    and at most one object, the derived secret, is added; when the cache
    reports the derived address as tracked, nothing is stored. *)
Theorem ImportExtendedKey_frame (ks : KeyStore C S) (h : heap)
    (extKey : extkeys.ExtendedKey) (passphrase : string) (id : list byte) (now : Z) :
  (∀ l, is_Some (h !! l) →
     (ImportExtendedKey ks h extKey passphrase id now).2 !! l = h !! l) ∧
  dom (ImportExtendedKey ks h extKey passphrase id now).2 ⊆ {[fresh (dom h)]} ∪ dom h ∧
  ((hasAddress (cache ks) (storage ks)
      (Key.Address (newKeyFromExtendedKey extKey id h).1.1)).1 = true →
   storage (ImportExtendedKey ks h extKey passphrase id now).1.2 = storage ks).
Proof.
  unfold ImportExtendedKey.
  destruct (newKeyFromExtendedKey extKey id h) as [[key err] h0] eqn:Hnew.
  apply newKeyFromExtendedKey_cases in Hnew.
  destruct err as [err|].
  { destruct Hnew as [-> ->]. simpl. split; [done|]. split; [set_solver|done]. }
  destruct Hnew as (secret & -> & Hpk & _). simpl.
  pose proof (fresh_heap_lookup h) as Hnone.
  assert (Hframe : ∀ l, is_Some (h !! l) →
                        (<[fresh (dom h) := secret]> h : heap) !! l = h !! l).
  { intros l Hl. apply lookup_insert_ne. intros <-. rewrite Hnone in Hl. by destruct Hl. }
  assert (Hdom : dom (<[fresh (dom h) := secret]> h : heap) = {[fresh (dom h)]} ∪ dom h)
    by apply dom_insert_L.
  destruct (hasAddress (cache ks) (storage ks) (Key.Address key)) as [[|] c]; simpl.
  - destruct (find _ _) as [a [e|]]; simpl.
    + split.
      { intros l Hl. rewrite zeroKey_lookup_ne; [by apply Hframe|].
        rewrite Hpk. intros [= <-]. rewrite Hnone in Hl. by destruct Hl. }
      split; [by rewrite dom_zeroKey, Hdom|done].
    + split; [exact Hframe|]. split; [by rewrite Hdom|done].
  - unfold importKey. simpl.
    destruct (StoreKey _ _ _ _ _) as [s [e|]]; simpl;
      (split; [exact Hframe|]; split; [by rewrite Hdom|discriminate]).
Qed.

End MoreVaultProperties.

(** ** Properties of the topic register *)

Lemma foldl_Start_topic (topics : list string) (r : Register.t) (w : Runtime) :
  foldl Start_topic (r, w) topics
  = ({| Register.topics := Register.topics r;
        Register.wg := (Register.wg r + length topics)%nat;
        Register.quit := Register.quit r |},
     {| chans := chans w; started := started w ++ topics |}).
Proof.
  revert r w. induction topics as [|topic topics IH]; intros r w.
  - simpl. rewrite Nat.add_0_r, app_nil_r. by destruct r, w.
  - cbn [foldl]. unfold Start_topic at 2. rewrite IH. simpl.
    rewrite <- app_assoc. simpl.
    repeat f_equal. lia.
Qed.

Lemma Start_true (r : Register.t) (w : Runtime) :
  Start r w true
  = ({| Register.topics := Register.topics r;
        Register.wg := (Register.wg r + length (Register.topics r))%nat;
        Register.quit := Some (fresh (dom (chans w))) |},
     {| chans := <[fresh (dom (chans w)) := false]> (chans w);
        started := started w ++ Register.topics r |}, None).
Proof. unfold Start. cbn [negb]. cbv zeta. by rewrite foldl_Start_topic. Qed.

Lemma Start_quit_allocated (r : Register.t) (w : Runtime) (discV5 : bool) :
  quit_allocated r w → quit_allocated (Start r w discV5).1.1 (Start r w discV5).1.2.
Proof.
  intros Hinv. destruct discV5; [|exact Hinv].
  rewrite Start_true. cbn [fst snd]. intros c [= <-]. cbn [chans].
  rewrite lookup_insert_eq. by eexists.
Qed.

Lemma Stop_Ok (r : Register.t) (w : Runtime) :
  quit_allocated r w →
  ∃ w', Stop r w = Ok (r, w') ∧ quit_allocated r w' ∧ started w' = started w ∧
        (∀ c, Register.quit r ≠ Some c → chans w' !! c = chans w !! c) ∧
        (∀ c, Register.quit r = Some c → chans w' !! c = Some true).
Proof.
  intros Hinv. unfold Stop, quit_allocated in *.
  destruct (Register.quit r) as [c|] eqn:Hq.
  2:{ exists w. split; [done|]. split; [done|]. split; [done|]. split; done. }
  destruct (Hinv c eq_refl) as [b Hc]. rewrite Hc. simpl.
  destruct b; simpl.
  - exists w. split; [done|]. split; [done|]. split; [done|].
    split; [done|]. by intros ? [= <-].
  - rewrite Hc. unfold_bind. simpl. eexists. split; [reflexivity|]. simpl.
    split. { intros ? [= <-]. rewrite lookup_insert_eq. by eexists. }
    split; [done|].
    split. { intros c' Hne. apply lookup_insert_ne. congruence. }
    intros ? [= <-]. apply lookup_insert_eq.
Qed.

Lemma calls_Ok (cs : list call) (r : Register.t) (w : Runtime) :
  quit_allocated r w →
  ∃ r' w', calls cs r w = Ok (r', w') ∧ quit_allocated r' w' ∧
           Register.topics r' = Register.topics r.
Proof.
  revert r w. induction cs as [|[discV5|] cs IH]; intros r w Hinv; simpl.
  - by exists r, w.
  - pose proof (Start_quit_allocated r w discV5 Hinv) as Hinv'.
    assert (Htopics : Register.topics (Start r w discV5).1.1 = Register.topics r).
    { destruct discV5; [|done]. by rewrite Start_true. }
    destruct (Start r w discV5) as [[r1 w1] e]. simpl in *.
    destruct (IH r1 w1 Hinv') as (r' & w' & Hrun & Hinv'' & Ht).
    exists r', w'. split; [exact Hrun|]. split; [exact Hinv''|congruence].
  - destruct (Stop_Ok r w Hinv) as (w1 & Hstop & Hinv' & _).
    rewrite Hstop. unfold_bind. simpl. by apply IH.
Qed.


(** X13. [Start] on a server without discovery v5 returns
    [ErrDiscv5NotRunning] and changes nothing. Otherwise it returns no
    error, makes a new, open channel the register's [quit], leaves every
    other channel as it was, starts one goroutine for each topic, in the
    order of the topics, and adds to the wait group exactly the number of
    goroutines it started. *)
Theorem Start_result (r : Register.t) (w : Runtime) :
  Start r w false = (r, w, Some ErrDiscv5NotRunning) ∧
  ∃ r' w', Start r w true = (r', w', None) ∧
    Register.topics r' = Register.topics r ∧
    Register.quit r' = Some (fresh (dom (chans w))) ∧
    chans w !! fresh (dom (chans w)) = None ∧
    chans w' !! fresh (dom (chans w)) = Some false ∧
    (∀ c, is_Some (chans w !! c) → chans w' !! c = chans w !! c) ∧
    started w' = started w ++ Register.topics r ∧
    Register.wg r' = (Register.wg r + length (Register.topics r))%nat.
Proof.
  split; [reflexivity|]. rewrite Start_true.
  eexists _, _. split; [reflexivity|]. cbn [chans started Register.topics Register.quit Register.wg].
  pose proof (is_fresh (dom (chans w))) as Hfresh.
  split; [done|]. split; [done|].
  split; [by apply not_elem_of_dom|].
  split; [apply lookup_insert_eq|].
  split.
  { intros c Hc. apply lookup_insert_ne. intros <-. apply Hfresh. by apply elem_of_dom. }
  done.
Qed.

(** X14. No sequence of [Start] and [Stop] calls on a register made by
    [NewResigter] panics, in any run-time: [Stop] before any [Start],
    [Stop] after [Stop] and [Start] after [Start] all return, and the
    topics of the register are never changed. *)
Theorem calls_never_panic (topics : list string) (cs : list call) (w : Runtime) :
  ∃ r' w', calls cs (NewResigter topics) w = Ok (r', w') ∧
           Register.topics r' = topics.
Proof.
  destruct (calls_Ok cs (NewResigter topics) w) as (r' & w' & Hrun & _ & Ht).
  { intros c Hc. discriminate Hc. }
  by exists r', w'.
Qed.



(** ** More concrete runs *)

Section MoreSampleRuns.
#[local] Existing Instances Sample.scrypt_api Sample.crypto_api Sample.upstream
  Sample.extkeys_api Sample.json_api Sample.keyStore_api Sample.accountCache_api.


(** X2 on a record whose MAC is "zz". *)
Lemma decryptExtendedKey_malformed_hex_witness :
  decryptExtendedKey Sample2.malformedRecord "correct-password"
  = Err (ErrInvalidByte "z") ∧
  ErrInvalidByte "z" ≠ ErrDecrypt.
Proof.
  refine (decryptExtendedKey_malformed_hex Sample2.malformedRecord "correct-password"
            (ErrInvalidByte "z") _ _ _ _).
  - vm_compute. discriminate.
  - reflexivity.
  - reflexivity.
  - left. vm_compute. reflexivity.
Defined.

(** X3 on two runs that return one blob. *)
Lemma EncryptExtendedKey_records_entropy_witness :
  Sample.salt = Sample.salt ∧ Sample.iv = Sample.iv ∧ 2 = 2 ∧ 1 = 1.
Proof.
  refine (EncryptExtendedKey_records_entropy Sample.masterKey Sample.masterKey
            "correct-password" "correct-password" 2 2 1 1
            Sample.salt Sample.salt Sample.iv Sample.iv
            (Sample.encrypted (Some Sample.masterKey) "correct-password") _ _);
    vm_compute; reflexivity.
Defined.

(** X4 at a cost parameter N that is not a power of 2. *)
Lemma EncryptExtendedKey_fails_in_primitives_witness :
  EncryptExtendedKey (Some Sample.masterKey) "correct-password" 3 1
    Sample.salt Sample.iv
  = Err (ErrExternal "scrypt: N must be > 1 and a power of 2").
Proof.
  exact (EncryptExtendedKey_fails_in_primitives Sample.masterKey "correct-password"
           3 1 Sample.salt Sample.iv sample_scrypt_Key_length).
Defined.


(** X6 on the version-3 document. *)
Lemma DecryptKey_addressed_witness :
  ∃ key h,
    DecryptKey Sample.currentDocument "correct-password" ∅ = Ok (key, h) ∧
    addressed h key ∧ Key.PrivateKey key = Some 0%nat.
Proof.
  destruct (DecryptKey Sample.currentDocument "correct-password" ∅)
    as [[key h]|] eqn:Hdec; [|vm_compute in Hdec; discriminate].
  destruct (DecryptKey_addressed Sample.currentDocument "correct-password" ∅ h key
              Hdec) as (Haddr & Hpk & _).
  exists key, h. split; [reflexivity|]. split; [exact Haddr|exact Hpk].
Defined.

(** X10 on [Sample.masterKey]. *)
Lemma newKeyFromExtendedKey_addressed_witness :
  addressed Sample.derivedHeap Sample.derivedKey ∧
  Key.Id Sample.derivedKey = [x2a] ∧
  Key.SubAccountIndex Sample.derivedKey = 0.
Proof.
  destruct (newKeyFromExtendedKey_addressed Sample.masterKey [x2a] ∅
              Sample.derivedHeap Sample.derivedKey None)
    as (Haddr & Hid & Hidx & _).
  - vm_compute. reflexivity.
  - split; [exact Haddr|]. split; [exact Hid|exact Hidx].
Defined.

(** X11 on a master key that is not private. *)
Lemma ImportExtendedKey_derivation_error_witness :
  ImportExtendedKey Sample.emptyKeyStore ∅ Sample2.publicKey "correct-password"
    [x2a] 0
  = ((Account_zero, Some (ErrExternal "invalid master key")), Sample.emptyKeyStore, ∅).
Proof.
  refine (ImportExtendedKey_derivation_error Sample.emptyKeyStore ∅ Sample2.publicKey
            "correct-password" [x2a] 0 (ErrExternal "invalid master key") _ _).
  - reflexivity.
  - left. reflexivity.
Defined.



End MoreSampleRuns.

Section Sample2Runs.
#[local] Existing Instances Sample.scrypt_api Sample.crypto_api Sample.upstream
  Sample.extkeys_api Sample2.json_api Sample2.encrypt_api.


(** X7 on the document whose extended key was encrypted under another
    passphrase than its primary key. *)
Lemma DecryptKey_needs_extended_key_witness :
  DecryptKey Sample2.mixedDocument "correct-password" ∅ = Err ErrDecrypt.
Proof.
  destruct (hex.DecodeString
              (cryptoJSON.MAC (encryptedKeyJSONV3.ExtendedKey Sample2.mixedRecord)))
    as [mac|] eqn:Hmac; [|vm_compute in Hmac; discriminate].
  destruct (hex.DecodeString
              (cipherparamsJSON.IV
                 (cryptoJSON.CipherParams
                    (encryptedKeyJSONV3.ExtendedKey Sample2.mixedRecord))))
    as [iv|] eqn:Hiv; [|vm_compute in Hiv; discriminate].
  destruct (calculatedMAC (encryptedKeyJSONV3.ExtendedKey Sample2.mixedRecord)
              "correct-password")
    as [recomputed|] eqn:Hcalc; [|vm_compute in Hcalc; discriminate].
  refine (proj2 (DecryptKey_needs_extended_key Sample2.mixedDocument
                   "correct-password" ∅
                   (<["subaccountindex" := AFloat64 (inject_Z 41)]>
                      (<["version" := AFloat64 (inject_Z 3)]> ∅))
                   Sample2.mixedRecord [x44; x55; x66] (list_byte_of_string "2a")
                   _ _ _ _ _ _) mac iv recomputed _ Hmac Hiv Hcalc _).
  - reflexivity.
  - reflexivity.
  - reflexivity.
  - vm_compute. reflexivity.
  - vm_compute. discriminate.
  - reflexivity.
  - vm_compute. reflexivity.
  - intros ->. vm_compute in Hmac, Hcalc. rewrite <- Hmac in Hcalc. discriminate.
Defined.


End Sample2Runs.
